(** * mcp-utils: the MCP server lifecycle controller

    A shallow embedding of [buildMCPServer] and of the two HTTP handlers it
    installs ([createMcpRequestHandler], [createUnsupportedMethodHandler]).

    The closure variables of [buildMCPServer] become the record [Vars]; the
    JavaScript objects the closures share (the [McpServer] engine, the
    transports, the node HTTP server, the express responses) live in a
    [Heap] and are referred to by handle, so that aliasing is visible.
    Every statement of the source is one action of the monad [M], which
    threads the world, records what was done in a trace and distinguishes a
    normal return, a raised error and a promise that never settles.

    What the collaborators do (the SDK engine, express, node, the listeners
    subscribed to the event emitter) is not decided by this code: it is
    read from an [Env], over which the theorems quantify. *)

From stdpp Require Import base numbers list strings.

Local Open Scope string_scope.
Local Open Scope list_scope.

(** ** Data *)

Definition Err := string.

(** [AnyTool] of src/types.ts; schemas and the handler function are opaque. *)
Record AnyTool := {
  tool_name : string;
  tool_description : string;
  tool_inputSchema : string;
  tool_outputSchema : string;
  tool_handler : nat
}.

Inductive TransportKind := stdio | http.

(** [McpServerConnectionInfo] *)
Inductive McpServerConnectionInfo :=
| ConnHttp (host : string) (port : nat)
| ConnStdio.

Definition conn_transport (ci : McpServerConnectionInfo) : TransportKind :=
  match ci with ConnHttp _ _ => http | ConnStdio => stdio end.

(** [McpServerOptions] *)
Record McpServerOptions := {
  opt_name : string;
  opt_version : string;
  opt_description : option string;
  opt_tools : option (list AnyTool);
  opt_transport : TransportKind;
  opt_port : option nat
}.

#[warnings="-register-all"]
Inductive Json :=
| JNull
| JNum (z : Z)
| JStr (s : string)
| JObj (fields : list (string * Json)).

Inductive Method := GET | POST | PUT | DELETE | PATCH | HEAD | OPTIONS.

#[export] Instance Method_eq_dec : EqDecision Method.
Proof. solve_decision. Defined.

Record Request := {
  req_id : nat;
  req_method : Method;
  req_path : string;
  req_body : Json
}.

(** ** Objects and handles *)

(** The SDK engine: the tools registered with it, in the order it accepted
    them, and the transport it is connected to ([connect] binds it, [close]
    unbinds it). *)
Record McpServer := {
  srv_name : string;
  srv_version : string;
  srv_description : string;
  srv_tools : list AnyTool;
  srv_transport : option nat
}.

Inductive TransportClass :=
| StdioServerTransport
| StreamableHTTPServerTransport (sessionIdGenerator : option nat).

Record Transport := {
  tr_class : TransportClass;
  tr_closed : bool
}.

(** The function values the source builds: the two route handlers and the
    close listener of a response, each with the variables it captures. *)
Inductive RouteHandler :=
| McpRequestHandler (server : nat)
| UnsupportedMethodHandler (method : string).

Record Route := {
  route_method : Method;
  route_path : string;
  route_handler : RouteHandler
}.

Record HttpServer := {
  hs_port : nat;
  hs_host : string;
  hs_routes : list Route;
  hs_listening : bool
}.

Record CloseListener := {
  cl_transport : nat;
  cl_server : nat;
  cl_request : Request
}.

Record Response := {
  headersSent : bool;
  statusCode : nat;
  body : option Json;
  on_close : list CloseListener
}.

Record Heap := {
  servers : list McpServer;
  transports : list Transport;
  httpServers : list HttpServer;
  responses : list Response
}.

(** The [let] variables of [buildMCPServer]. *)
Record Vars := {
  mcpServer : option nat;
  httpServer : option nat;
  registeredTools : list AnyTool;
  isServerRunning : bool;
  connectionInfo : option McpServerConnectionInfo
}.

Record World := {
  vars : Vars;
  heap : Heap
}.

(** ** Traces *)

(** [McpServerEvents] *)
Inductive Event :=
| serverStarting
| serverStartError (error : Err)
| serverReady (ci : option McpServerConnectionInfo) (tools : list AnyTool)
| serverStopping
| serverStopped
| requestReceived (request : Request)
| requestFailed (request : Request) (error : Err)
| requestCompleted (request : Request) (response : nat).

Inductive Level := warn | info | error.

Inductive Assignment :=
| SetMcpServer (v : option nat)
| SetHttpServer (v : option nat)
| SetRegisteredTools (v : list AnyTool)
| SetIsServerRunning (v : bool)
| SetConnectionInfo (v : option McpServerConnectionInfo).

Inductive ExtCall :=
| NewMcpServer (h : nat)
| RegisterTool (server : nat) (tool : AnyTool)
| Connect (server transport : nat)
| NewStdioTransport (h : nat)
| NewHttpTransport (h : nat)
| FindFreePort
| Listen (port : nat) (host : string)
| HttpClose (h : nat)
| ServerClose (server : nat)
| TransportClose (transport : nat)
| HandleRequest (transport : nat) (request : Request) (response : nat)
| NewResponse (h : nat)
| OnClose (response : nat)
| SendJson (response status : nat) (payload : Json).

Inductive Item :=
| Emit (ev : Event)
| Log (lvl : Level) (msg : string) (ctx : list (string * string))
| Call (c : ExtCall)
| Assign (a : Assignment)
| Uncaught (e : Err).

Definition Trace := list Item.

(** ** The environment *)

(** [expressApp.listen(port, host, cb)]: it raises at once, or returns the
    server and later either invokes [cb] (with or without an error argument,
    which the source's callback does not look at) or reports the failure on
    the server's error channel without ever invoking [cb]. *)
Inductive ListenOutcome :=
| ListenRaise (e : Err)
| ListenCallback (err : option Err)
| ListenNoCallback (e : Err).

(** [httpServer.close(cb)]: it raises at once, or stops accepting
    connections and invokes [cb] once the open connections have ended (with
    or without an error argument, which the source's callback does not look
    at), or, a connection being held open, never invokes [cb]. *)
Inductive HttpCloseOutcome :=
| HttpCloseRaise (e : Err)
| HttpCloseCallback (err : option Err)
| HttpCloseNoCallback.

(** [transport.handleRequest]: it may write a response and may raise. *)
Record HandleOutcome := {
  ho_reply : option (nat * Json);
  ho_error : option Err
}.

Record Env := {
  (** a listener subscribed to the event raises *)
  listener_raises : Event -> option Err;
  (** [icons.ellipsis] *)
  icons_ellipsis : string;
  new_McpServer_raises : option Err;
  registerTool_raises : McpServer -> AnyTool -> option Err;
  connect_raises : option Err;
  findFreePort : Err + nat;
  listen : ListenOutcome;
  httpServer_close : HttpCloseOutcome;
  close_raises : option Err;
  new_transport_raises : option Err;
  transport_close_raises : option Err;
  handleRequest : HandleOutcome
}.

(** ** The monad *)

Inductive Outcome (A : Type) :=
| Ret (a : A)
| Throw (e : Err)
| Pending.
Arguments Ret {A} a.
Arguments Throw {A} e.
Arguments Pending {A}.

Definition M (A : Type) : Type := World -> Outcome A * World * Trace.

Definition ret {A} (a : A) : M A := fun w => (Ret a, w, []).

Definition bind {A B} (m : M A) (f : A -> M B) : M B := fun w =>
  match m w with
  | (Ret a, w1, t1) =>
      match f a w1 with (o, w2, t2) => (o, w2, t1 ++ t2) end
  | (Throw e, w1, t1) => (Throw e, w1, t1)
  | (Pending, w1, t1) => (Pending, w1, t1)
  end.

#[export] Instance M_ret : MRet M := @ret.
#[export] Instance M_bind : MBind M := fun A B f m => bind m f.

Definition throw {A} (e : Err) : M A := fun w => (Throw e, w, []).

(** An awaited promise that never settles. *)
Definition pending {A} : M A := fun w => (Pending, w, []).

(** [try { m } catch (e) { h e }] *)
Definition try_catch {A} (m : M A) (h : Err -> M A) : M A := fun w =>
  match m w with
  | (Throw e, w1, t1) =>
      match h e w1 with (o, w2, t2) => (o, w2, t1 ++ t2) end
  | r => r
  end.

(** [p.finally(f)]: [f] runs once [p] has settled, either way. *)
Definition finally_ (m : M unit) (f : M unit) : M unit := fun w =>
  match m w with
  | (Pending, w1, t1) => (Pending, w1, t1)
  | (o, w1, t1) =>
      match f w1 with
      | (Ret _, w2, t2) => (o, w2, t1 ++ t2)
      | (o', w2, t2) => (o', w2, t1 ++ t2)
      end
  end.

(** A callback run by the event loop: what it raises reaches nobody, and
    the code after the raise is not run. *)
Definition in_callback (m : M unit) : M unit := fun w =>
  match m w with
  | (Throw e, w1, t1) => (Pending, w1, t1 ++ [Uncaught e])
  | r => r
  end.

(** A promise nobody awaits. *)
Definition detached (m : M unit) : M unit := fun w =>
  match m w with
  | (Throw e, w1, t1) => (Ret (), w1, t1 ++ [Uncaught e])
  | (Pending, w1, t1) => (Ret (), w1, t1)
  | r => r
  end.

Definition tell (i : Item) : M unit := fun w => (Ret (), w, [i]).

Definition get_vars : M Vars := fun w => (Ret (vars w), w, []).

Definition get_heap : M Heap := fun w => (Ret (heap w), w, []).

Definition put_heap (h : Heap) : M unit := fun w =>
  (Ret (), {| vars := vars w; heap := h |}, []).

Definition raise_if (o : option Err) : M unit :=
  match o with Some e => throw e | None => ret () end.

Definition apply_assign (a : Assignment) (v : Vars) : Vars :=
  match a with
  | SetMcpServer x =>
      {| mcpServer := x; httpServer := httpServer v;
         registeredTools := registeredTools v;
         isServerRunning := isServerRunning v;
         connectionInfo := connectionInfo v |}
  | SetHttpServer x =>
      {| mcpServer := mcpServer v; httpServer := x;
         registeredTools := registeredTools v;
         isServerRunning := isServerRunning v;
         connectionInfo := connectionInfo v |}
  | SetRegisteredTools x =>
      {| mcpServer := mcpServer v; httpServer := httpServer v;
         registeredTools := x;
         isServerRunning := isServerRunning v;
         connectionInfo := connectionInfo v |}
  | SetIsServerRunning x =>
      {| mcpServer := mcpServer v; httpServer := httpServer v;
         registeredTools := registeredTools v;
         isServerRunning := x;
         connectionInfo := connectionInfo v |}
  | SetConnectionInfo x =>
      {| mcpServer := mcpServer v; httpServer := httpServer v;
         registeredTools := registeredTools v;
         isServerRunning := isServerRunning v;
         connectionInfo := x |}
  end.

(** An assignment to one of the closure variables. *)
Definition assign (a : Assignment) : M unit := fun w =>
  (Ret (), {| vars := apply_assign a (vars w); heap := heap w |}, [Assign a]).

(** The closure variables after the assignments of a trace. *)
Definition replay (t : Trace) (v : Vars) : Vars :=
  foldl (fun v i => match i with Assign a => apply_assign a v | _ => v end) v t.

(** ** The program *)

Definition set_servers (l : list McpServer) (h : Heap) : Heap :=
  {| servers := l; transports := transports h;
     httpServers := httpServers h; responses := responses h |}.

Definition set_transports (l : list Transport) (h : Heap) : Heap :=
  {| servers := servers h; transports := l;
     httpServers := httpServers h; responses := responses h |}.

Definition set_httpServers (l : list HttpServer) (h : Heap) : Heap :=
  {| servers := servers h; transports := transports h;
     httpServers := l; responses := responses h |}.

Definition set_responses (l : list Response) (h : Heap) : Heap :=
  {| servers := servers h; transports := transports h;
     httpServers := httpServers h; responses := l |}.

Definition srv_add_tool (t : AnyTool) (s : McpServer) : McpServer :=
  {| srv_name := srv_name s; srv_version := srv_version s;
     srv_description := srv_description s;
     srv_tools := srv_tools s ++ [t];
     srv_transport := srv_transport s |}.

Definition srv_set_transport (t : option nat) (s : McpServer) : McpServer :=
  {| srv_name := srv_name s; srv_version := srv_version s;
     srv_description := srv_description s;
     srv_tools := srv_tools s;
     srv_transport := t |}.

Definition tr_close (t : Transport) : Transport :=
  {| tr_class := tr_class t; tr_closed := true |}.

(** The heap after engine [server] has closed: the transport it was
    connected to, if any, is closed, and the engine is connected to none. *)
Definition close_engine (server : nat) (h : Heap) : Heap :=
  {| servers := alter (srv_set_transport None) server (servers h);
     transports :=
       match servers h !! server ≫= srv_transport with
       | Some tr => alter tr_close tr (transports h)
       | None => transports h
       end;
     httpServers := httpServers h;
     responses := responses h |}.

Definition hs_stop (s : HttpServer) : HttpServer :=
  {| hs_port := hs_port s; hs_host := hs_host s;
     hs_routes := hs_routes s; hs_listening := false |}.

Definition resp_send (status : nat) (payload : Json) (r : Response) : Response :=
  {| headersSent := true; statusCode := status; body := Some payload;
     on_close := on_close r |}.

Definition resp_on_close (l : CloseListener) (r : Response) : Response :=
  {| headersSent := headersSent r; statusCode := statusCode r; body := body r;
     on_close := on_close r ++ [l] |}.

(** [createJsonRpcError] *)
Definition createJsonRpcError (code : Z) (message : string) : Json :=
  JObj [("jsonrpc", JStr "2.0");
        ("error", JObj [("code", JNum code); ("message", JStr message)]);
        ("id", JNull)].

Section Program.

Variable options : McpServerOptions.
Variable env : Env.

(** *** Collaborators *)

(** [eventEmitter.emit]: the listeners run before [emit] returns, and what
    one of them raises is raised by [emit]. *)
Definition emit (ev : Event) : M unit :=
  tell (Emit ev);; raise_if (listener_raises env ev).

Definition logger (lvl : Level) (msg : string) (ctx : list (string * string))
  : M unit :=
  tell (Log lvl msg ctx).

Definition new_McpServer (name version description : string) : M nat :=
  h ← get_heap;
  let r := length (servers h) in
  tell (Call (NewMcpServer r));;
  raise_if (new_McpServer_raises env);;
  put_heap (set_servers
              (servers h ++ [ {| srv_name := name; srv_version := version;
                                 srv_description := description;
                                 srv_tools := []; srv_transport := None |} ]) h);;
  mret r.

Definition registerTool (server : nat) (tool : AnyTool) : M unit :=
  tell (Call (RegisterTool server tool));;
  h ← get_heap;
  match servers h !! server with
  | Some s =>
      raise_if (registerTool_raises env s tool);;
      put_heap (set_servers (<[server := srv_add_tool tool s]> (servers h)) h)
  | None => mret ()
  end.

Definition new_Transport (c : TransportClass) : M nat :=
  h ← get_heap;
  let r := length (transports h) in
  tell (Call (match c with
              | StdioServerTransport => NewStdioTransport r
              | StreamableHTTPServerTransport _ => NewHttpTransport r
              end));;
  raise_if (new_transport_raises env);;
  put_heap (set_transports
              (transports h ++ [ {| tr_class := c; tr_closed := false |} ]) h);;
  mret r.

(** [server.connect(transport)] *)
Definition connect (server transport : nat) : M unit :=
  tell (Call (Connect server transport));;
  raise_if (connect_raises env);;
  h ← get_heap;
  put_heap (set_servers
              (alter (srv_set_transport (Some transport)) server (servers h)) h).

(** [server.close()]: the engine closes the transport it is connected to,
    whichever request connected it, and is connected to none afterwards. *)
Definition close (server : nat) : M unit :=
  tell (Call (ServerClose server));;
  raise_if (close_raises env);;
  h ← get_heap;
  put_heap (close_engine server h).

(** [transport.close()] *)
Definition transport_close (transport : nat) : M unit :=
  tell (Call (TransportClose transport));;
  raise_if (transport_close_raises env);;
  h ← get_heap;
  put_heap (set_transports (alter tr_close transport (transports h)) h).

(** [response.status(status).json(payload)] *)
Definition send_json (response status : nat) (payload : Json) : M unit :=
  tell (Call (SendJson response status payload));;
  h ← get_heap;
  put_heap (set_responses
              (alter (resp_send status payload) response (responses h)) h).

(** [transport.handleRequest(request, response, request.body)] *)
Definition transport_handleRequest (transport : nat) (request : Request)
    (response : nat) : M unit :=
  tell (Call (HandleRequest transport request response));;
  match ho_reply (handleRequest env) with
  | Some (status, payload) =>
      h ← get_heap;
      put_heap (set_responses
                  (alter (resp_send status payload) response (responses h)) h)
  | None => mret ()
  end;;
  raise_if (ho_error (handleRequest env)).

(** [response.on("close", listener)] *)
Definition response_on_close (response : nat) (l : CloseListener) : M unit :=
  tell (Call (OnClose response));;
  h ← get_heap;
  put_heap (set_responses (alter (resp_on_close l) response (responses h)) h).

Definition call_findFreePort : M nat :=
  tell (Call FindFreePort);;
  match findFreePort env with
  | inl e => throw e
  | inr p => mret p
  end.

(** [await new Promise(resolve => { httpServer = expressApp.listen(port,
    host, cb) })], where [cb] ends with [resolve()]. *)
Definition expressApp_listen (routes : list Route) (port : nat) (host : string)
    (cb : M unit) : M unit :=
  tell (Call (Listen port host));;
  match listen env with
  | ListenRaise e => throw e
  | ListenCallback err =>
      h ← get_heap;
      put_heap (set_httpServers
                  (httpServers h ++
                   [ {| hs_port := port; hs_host := host; hs_routes := routes;
                        hs_listening := bool_decide (err = None) |} ]) h);;
      assign (SetHttpServer (Some (length (httpServers h))));;
      in_callback cb
  | ListenNoCallback e =>
      h ← get_heap;
      put_heap (set_httpServers
                  (httpServers h ++
                   [ {| hs_port := port; hs_host := host; hs_routes := routes;
                        hs_listening := false |} ]) h);;
      assign (SetHttpServer (Some (length (httpServers h))));;
      tell (Uncaught e);;
      pending
  end.

(** [await new Promise(resolve => { httpServer?.close(() => resolve()) })] *)
Definition await_httpServer_close (h : nat) : M unit :=
  tell (Call (HttpClose h));;
  match httpServer_close env with
  | HttpCloseRaise e => throw e
  | HttpCloseCallback _ =>
      hp ← get_heap;
      put_heap (set_httpServers (alter hs_stop h (httpServers hp)) hp)
  | HttpCloseNoCallback =>
      hp ← get_heap;
      put_heap (set_httpServers (alter hs_stop h (httpServers hp)) hp);;
      pending
  end.

(** *** The handlers *)

(** [createUnsupportedMethodHandler] *)
Definition createUnsupportedMethodHandler (method : string)
    (_ : Request) (response : nat) : M unit :=
  logger warn "Unsupported HTTP method" [("path", "/mcp"); ("method", method)];;
  send_json response 405 (createJsonRpcError (-32000) "Method not allowed").

(** The listener of the response's close event. *)
Definition close_listener (transport server : nat) (request : Request)
    (response : nat) : M unit :=
  detached
    (finally_
       (try_catch
          (transport_close transport;; close server)
          (fun e => emit (requestFailed request e)))
       (emit (requestCompleted request response))).

(** The body of the [try] of [createMcpRequestHandler]. *)
Definition mcp_request_steps (server : nat)
    (request : Request) (response : nat) : M unit :=
  emit (requestReceived request);;
  transport ← new_Transport (StreamableHTTPServerTransport None);
  response_on_close response
    {| cl_transport := transport; cl_server := server;
       cl_request := request |};;
  connect server transport;;
  transport_handleRequest transport request response.

(** [createMcpRequestHandler] *)
Definition createMcpRequestHandler (server : nat)
    (request : Request) (response : nat) : M unit :=
  try_catch
    (mcp_request_steps server request response)
    (fun e =>
       emit (requestFailed request e);;
       h ← get_heap;
       match responses h !! response with
       | Some r =>
           if headersSent r then mret ()
           else send_json response 500
                  (createJsonRpcError (-32603) "Internal server error")
       | None => mret ()
       end).

(** [pushToolsToServer] *)
Fixpoint pushToolsToServer (server : nat) (tools : list AnyTool) : M unit :=
  match tools with
  | [] => mret ()
  | tool :: rest =>
      logger info ("Registering tool" +:+ icons_ellipsis env)
        [("name", tool_name tool)];;
      registerTool server tool;;
      pushToolsToServer server rest
  end.

(** *** [buildMCPServer] *)

Definition initial_vars : Vars :=
  {| mcpServer := None; httpServer := None;
     registeredTools := default [] (opt_tools options);
     isServerRunning := false; connectionInfo := None |}.

Definition registerTools (tools : list AnyTool) : M unit :=
  v ← get_vars;
  match mcpServer v with
  | Some server => pushToolsToServer server tools
  | None => mret ()
  end;;
  v ← get_vars;
  assign (SetRegisteredTools (registeredTools v ++ tools)).

Definition engine_description : string :=
  match opt_description options with
  | Some d => if bool_decide (d = "") then opt_name options +:+ " MCP server" else d
  | None => opt_name options +:+ " MCP server"
  end.

Definition mcp_routes (server : nat) : list Route :=
  [ {| route_method := POST; route_path := "/mcp";
       route_handler := McpRequestHandler server |};
    {| route_method := GET; route_path := "/mcp";
       route_handler := UnsupportedMethodHandler "GET" |};
    {| route_method := DELETE; route_path := "/mcp";
       route_handler := UnsupportedMethodHandler "DELETE" |} ].

(** The body of the [try] of [start]. *)
Definition start_body : M unit :=
  server ← new_McpServer (opt_name options) (opt_version options)
             engine_description;
  assign (SetMcpServer (Some server));;
  v ← get_vars;
  pushToolsToServer server (registeredTools v);;
  match opt_transport options with
  | stdio =>
      transport ← new_Transport StdioServerTransport;
      connect server transport;;
      assign (SetConnectionInfo (Some ConnStdio));;
      assign (SetIsServerRunning true);;
      v ← get_vars;
      emit (serverReady (connectionInfo v) (registeredTools v))
  | http =>
      actualPort ← match opt_port options with
                   | Some p => mret p
                   | None => call_findFreePort
                   end;
      expressApp_listen (mcp_routes server) actualPort "localhost"
        (assign (SetConnectionInfo (Some (ConnHttp "localhost" actualPort)));;
         assign (SetIsServerRunning true);;
         v ← get_vars;
         emit (serverReady (connectionInfo v) (registeredTools v)))
  end.

(** [start]. Calls to the controller are taken one at a time: no other call
    runs while this one is suspended at an [await]. *)
Definition start : M unit :=
  v ← get_vars;
  if isServerRunning v then logger warn "Server is already running" []
  else
    emit serverStarting;;
    try_catch start_body
      (fun e => emit (serverStartError e);; throw e).

(** The body of the [try] of [stop]. *)
Definition stop_body : M unit :=
  v ← get_vars;
  match httpServer v with
  | Some h => await_httpServer_close h;; assign (SetHttpServer None)
  | None => mret ()
  end;;
  v ← get_vars;
  match mcpServer v with
  | Some server => close server;; assign (SetMcpServer None)
  | None => mret ()
  end;;
  assign (SetIsServerRunning false);;
  assign (SetConnectionInfo None);;
  emit serverStopped.

Definition stop : M unit :=
  v ← get_vars;
  if negb (isServerRunning v) then logger warn "Server is not running" []
  else
    emit serverStopping;;
    try_catch stop_body
      (fun e => logger error "Error stopping server" [("error", e)];; throw e).

Definition restart : M unit := stop;; start.

(** *** Requests reaching the express application *)

(** Node creates the response object of an incoming request. *)
Definition new_Response : M nat :=
  h ← get_heap;
  let r := length (responses h) in
  tell (Call (NewResponse r));;
  put_heap (set_responses
              (responses h ++
               [ {| headersSent := false; statusCode := 200; body := None;
                    on_close := [] |} ]) h);;
  mret r.

(** Whether a route installed with [expressApp.post], [.get] or [.delete]
    takes the request: the path and the verb are the route's, and express
    gives a HEAD request to the GET route when there is no HEAD route. *)
Definition route_handles (request : Request) (r : Route) : bool :=
  bool_decide (route_path r = req_path request) &&
  (bool_decide (route_method r = req_method request) ||
   (bool_decide (req_method request = HEAD) &&
    bool_decide (route_method r = GET))).

Definition run_handler (h : RouteHandler) : Request -> nat -> M unit :=
  match h with
  | McpRequestHandler server => createMcpRequestHandler server
  | UnsupportedMethodHandler method => createUnsupportedMethodHandler method
  end.

(** A request arrives at the application of HTTP server [hs], its body
    parsed by [express.json()]. The result is the response object and the
    handler that took the request, if one of the installed routes did;
    otherwise what is answered is up to express and is not part of this
    program. A handler is not awaited by express: what it raises reaches
    nobody. *)
Definition expressApp_handle (hs : nat) (request : Request)
  : M (nat * option RouteHandler) :=
  response ← new_Response;
  h ← get_heap;
  match httpServers h !! hs with
  | Some s =>
      match find (route_handles request) (hs_routes s) with
      | Some r =>
          detached (run_handler (route_handler r) request response);;
          mret (response, Some (route_handler r))
      | None => mret (response, None)
      end
  | None => mret (response, None)
  end.

Fixpoint run_close_listeners (response : nat) (ls : list CloseListener)
  : M unit :=
  match ls with
  | [] => mret ()
  | l :: rest =>
      close_listener (cl_transport l) (cl_server l) (cl_request l) response;;
      run_close_listeners response rest
  end.

(** The connection of a response closes: node emits its close event, once. *)
Definition connection_close (response : nat) : M unit :=
  h ← get_heap;
  match responses h !! response with
  | Some r => run_close_listeners response (on_close r)
  | None => mret ()
  end.

End Program.

Definition isRunning (w : World) : bool := isServerRunning (vars w).

Record Status := {
  status_running : bool;
  status_tools : list AnyTool;
  status_connectionInfo : option McpServerConnectionInfo
}.

Definition getStatus (w : World) : Status :=
  {| status_running := isServerRunning (vars w);
     status_tools := registeredTools (vars w);
     status_connectionInfo := connectionInfo (vars w) |}.

Definition empty_heap : Heap :=
  {| servers := []; transports := []; httpServers := []; responses := [] |}.

(** [buildMCPServer options] *)
Definition buildMCPServer (options : McpServerOptions) : World :=
  {| vars := initial_vars options; heap := empty_heap |}.

(** ** Vocabulary of the statements *)

(** [wp m Q w]: running [m] in [w] ends with an outcome, a world and a
    trace that satisfy [Q]. *)
Definition wp {A} (m : M A) (Q : Outcome A -> World -> Trace -> Prop)
    (w : World) : Prop :=
  match m w with (o, w', t) => Q o w' t end.

(** What [pushToolsToServer] does to the engine object [s] behind the handle
    [server], as a function: the error that stopped it (if any), the engine
    afterwards, the trace. *)
Fixpoint push_outcome (env : Env) (server : nat) (s : McpServer)
    (tools : list AnyTool) : option Err * McpServer * Trace :=
  match tools with
  | [] => (None, s, [])
  | tool :: rest =>
      let pre := [Log info ("Registering tool" +:+ icons_ellipsis env)
                    [("name", tool_name tool)];
                  Call (RegisterTool server tool)] in
      match registerTool_raises env s tool with
      | Some e => (Some e, s, pre)
      | None =>
          match push_outcome env server (srv_add_tool tool s) rest with
          | (o, s', t) => (o, s', pre ++ t)
          end
      end
  end.

Definition outcome_of (o : option Err) : Outcome unit :=
  match o with Some e => Throw e | None => Ret () end.

(** The trace of a push nothing interrupts. *)
Definition registration_trace (env : Env) (server : nat) (tools : list AnyTool)
  : Trace :=
  flat_map (fun tool =>
              [Log info ("Registering tool" +:+ icons_ellipsis env)
                 [("name", tool_name tool)];
               Call (RegisterTool server tool)]) tools.

(** The calls a client of the controller and the network can make. *)
Inductive Op :=
| OpRegisterTools (tools : list AnyTool)
| OpStart
| OpStop
| OpRestart
| OpRequest (hs : nat) (request : Request)
| OpConnectionClose (response : nat).

Definition run_op (options : McpServerOptions) (env : Env) (op : Op) : M unit :=
  match op with
  | OpRegisterTools tools => registerTools env tools
  | OpStart => start options env
  | OpStop => stop env
  | OpRestart => restart options env
  | OpRequest hs request => expressApp_handle env hs request;; mret ()
  | OpConnectionClose response => connection_close env response
  end.

(** Calls made one after the other, whatever each one's outcome. *)
Fixpoint exec (options : McpServerOptions) (calls : list (Env * Op)) (w : World)
  : World * Trace :=
  match calls with
  | [] => (w, [])
  | (env, op) :: rest =>
      match run_op options env op w with
      | (_, w1, t1) =>
          match exec options rest w1 with
          | (w2, t2) => (w2, t1 ++ t2)
          end
      end
  end.


Inductive reachable (options : McpServerOptions) : World -> Prop :=
| reachable_init : reachable options (buildMCPServer options)
| reachable_call env op w :
    reachable options w ->
    reachable options (run_op options env op w).1.2.

(** The closure variables as a listener or another task can see them: after
    some prefix of the assignments of a call made in a reachable world. *)
Definition observable (options : McpServerOptions) (v : Vars) : Prop :=
  exists w env op pre post,
    reachable options w /\
    (run_op options env op w).2 = pre ++ post /\
    v = replay pre (vars w).

Definition lifecycle_invariant (options : McpServerOptions) (v : Vars) : Prop :=
  isServerRunning v = true ->
  exists ci, connectionInfo v = Some ci /\
             conn_transport ci = opt_transport options.

(** [I] holds after every prefix of the assignments of [t], from [v]. *)
Definition holds_along (I : Vars -> Prop) (t : Trace) (v : Vars) : Prop :=
  forall pre post, t = pre ++ post -> I (replay pre v).

(** The same, as a recursion on the trace. *)
Fixpoint along (I : Vars -> Prop) (t : Trace) (v : Vars) : Prop :=
  match t with
  | [] => I v
  | i :: t' => I v /\ along I t' (replay [i] v)
  end.

(** Items that neither assign a closure variable nor emit an event nor bind:
    log lines and registrations with the engine. *)
Definition is_registration (i : Item) : bool :=
  match i with
  | Log _ _ _ | Call (RegisterTool _ _) => true
  | _ => false
  end.

Definition is_assign (i : Item) : bool :=
  match i with Assign _ => true | _ => false end.

Definition no_assign (t : Trace) : bool :=
  forallb (fun i => negb (is_assign i)) t.

(** The bind of [start]: connecting the stdio transport, or listening. *)
Definition is_bind (i : Item) : bool :=
  match i with
  | Call (Connect _ _) | Call (Listen _ _) => true
  | _ => false
  end.

Definition binds (t : Trace) : nat := length (List.filter is_bind t).

Definition is_lifecycle_event (i : Item) : bool :=
  match i with
  | Emit serverStarting | Emit (serverStartError _) | Emit (serverReady _ _)
  | Emit serverStopping | Emit serverStopped => true
  | _ => false
  end.

Definition is_requestCompleted (i : Item) : bool :=
  match i with Emit (requestCompleted _ _) => true | _ => false end.

Definition is_requestFailed (i : Item) : bool :=
  match i with Emit (requestFailed _ _) => true | _ => false end.

(** What the isolation layer does: a transport is made, bound or torn down,
    or a request event is emitted. *)
Definition is_isolation_action (i : Item) : bool :=
  match i with
  | Call (NewHttpTransport _) | Call (Connect _ _) | Call (OnClose _)
  | Call (HandleRequest _ _ _) | Call (TransportClose _)
  | Call (ServerClose _)
  | Emit (requestReceived _) | Emit (requestFailed _ _)
  | Emit (requestCompleted _ _) => true
  | _ => false
  end.

(** [a] occurs in [t] and [b] occurs later. *)
Definition precedes (a b : Item) (t : Trace) : Prop :=
  exists t1 t2 t3, t = t1 ++ a :: t2 ++ b :: t3.

(** The close listeners a response carries: the protocol-handling context
    the isolation layer tied to its request. *)
Definition context (w : World) (response : nat) : list CloseListener :=
  match responses (heap w) !! response with
  | Some r => on_close r
  | None => []
  end.

(** A teardown step of [stop] raises [e]: closing the socket does, or that
    went well (or there was none) and closing the engine does. *)
Definition teardown_raises (env : Env) (v : Vars) (e : Err) : Prop :=
  (is_Some (httpServer v) /\ httpServer_close env = HttpCloseRaise e) \/
  ((httpServer v = None \/ exists err, httpServer_close env = HttpCloseCallback err) /\
   is_Some (mcpServer v) /\ close_raises env = Some e).

(** A teardown step of a request's close listener raises [e]. *)
Definition request_teardown_raises (env : Env) (e : Err) : Prop :=
  transport_close_raises env = Some e \/
  (transport_close_raises env = None /\ close_raises env = Some e).

(** The JSON-RPC payloads of section 6. *)
Definition method_not_allowed : Json :=
  JObj [("jsonrpc", JStr "2.0");
        ("error", JObj [("code", JNum (-32000));
                        ("message", JStr "Method not allowed")]);
        ("id", JNull)].

Definition internal_server_error : Json :=
  JObj [("jsonrpc", JStr "2.0");
        ("error", JObj [("code", JNum (-32603));
                        ("message", JStr "Internal server error")]);
        ("id", JNull)].

(** The trace of a [stop()] that returns. *)
Definition stop_trace (v : Vars) : Trace :=
  Emit serverStopping ::
  match httpServer v with
  | Some h => [Call (HttpClose h); Assign (SetHttpServer None)]
  | None => []
  end ++
  match mcpServer v with
  | Some s => [Call (ServerClose s); Assign (SetMcpServer None)]
  | None => []
  end ++
  [Assign (SetIsServerRunning false); Assign (SetConnectionInfo None);
   Emit serverStopped].

(** The two handled verbs, and HEAD, which express gives to the GET route. *)
Definition unsupported_route (m : Method) : option string :=
  match m with
  | GET | HEAD => Some "GET"
  | DELETE => Some "DELETE"
  | _ => None
  end.

(** Which step of the handler raises, if any: in the order of the source,
    the request-received emission, building the transport, connecting the
    engine, forwarding the request. *)
Definition request_steps_outcome (env : Env) (request : Request)
  : Outcome unit :=
  match listener_raises env (requestReceived request) with
  | Some e => Throw e
  | None =>
      match new_transport_raises env with
      | Some e => Throw e
      | None =>
          match connect_raises env with
          | Some e => Throw e
          | None => outcome_of (ho_error (handleRequest env))
          end
      end
  end.

(** Whether the handler got as far as registering its close listener. *)
Definition registers_teardown (env : Env) (request : Request) : bool :=
  bool_decide (listener_raises env (requestReceived request) = None) &&
  bool_decide (new_transport_raises env = None).

(** The transport a request gets: no session id generator, open. *)
Definition sessionless_transport : Transport :=
  {| tr_class := StreamableHTTPServerTransport None; tr_closed := false |}.

(** ** Sample inputs *)

Definition sample_env (listeners : Event -> option Err)
    (engine_rejects : McpServer -> AnyTool -> option Err)
    (connect_error : option Err) (listen_outcome : ListenOutcome)
    (close_error new_transport_error transport_close_error : option Err)
  : Env :=
  {| listener_raises := listeners;
     icons_ellipsis := "...";
     new_McpServer_raises := None;
     registerTool_raises := engine_rejects;
     connect_raises := connect_error;
     findFreePort := inr 4001;
     listen := listen_outcome;
     httpServer_close := HttpCloseCallback None;
     close_raises := close_error;
     new_transport_raises := new_transport_error;
     transport_close_raises := transport_close_error;
     handleRequest := {| ho_reply := Some (200, JNull); ho_error := None |} |}.

(** Every collaborator succeeds and no listener raises. *)
Definition calm : Env :=
  sample_env (fun _ => None) (fun _ _ => None) None (ListenCallback None)
    None None None.

Definition echo : AnyTool :=
  {| tool_name := "echo"; tool_description := "Echoes its input";
     tool_inputSchema := "{value: string}"; tool_outputSchema := "{value: string}";
     tool_handler := 0 |}.

Definition add : AnyTool :=
  {| tool_name := "add"; tool_description := "Adds two numbers";
     tool_inputSchema := "{a: number, b: number}";
     tool_outputSchema := "{sum: number}";
     tool_handler := 1 |}.

Definition http_options : McpServerOptions :=
  {| opt_name := "demo"; opt_version := "1.0.0"; opt_description := None;
     opt_tools := Some [echo]; opt_transport := http; opt_port := Some 4000 |}.

Definition stdio_options : McpServerOptions :=
  {| opt_name := "demo"; opt_version := "1.0.0"; opt_description := None;
     opt_tools := Some [echo]; opt_transport := stdio; opt_port := None |}.

(** The world after a successful [start()] in each mode. *)
Definition http_running : World :=
  (start http_options calm (buildMCPServer http_options)).1.2.

Definition stdio_running : World :=
  (start stdio_options calm (buildMCPServer stdio_options)).1.2.

Definition post_mcp (id : nat) : Request :=
  {| req_id := id; req_method := POST; req_path := "/mcp";
     req_body := JObj [("method", JStr "tools/call")] |}.

Definition verb_mcp (m : Method) : Request :=
  {| req_id := 0; req_method := m; req_path := "/mcp"; req_body := JNull |}.

(** The SDK's own policy on identifiers: a name already registered with the
    engine is refused. *)
Definition rejects_duplicates (s : McpServer) (t : AnyTool) : option Err :=
  if bool_decide (tool_name t ∈ tool_name <$> srv_tools s)
  then Some ("Tool " +:+ tool_name t +:+ " is already registered")
  else None.

(** The engine refuses to close. *)
Definition engine_close_fails : Env :=
  sample_env (fun _ => None) (fun _ _ => None) None (ListenCallback None)
    (Some "close failed") None None.

(** The port is taken: express hands the error to the listen callback. *)
Definition port_in_use : Env :=
  sample_env (fun _ => None) (fun _ _ => None) None
    (ListenCallback (Some "EADDRINUSE")) None None None.

(** The port is taken: node reports it on the server's error channel and the
    listen callback is never invoked. *)
Definition port_in_use_silent : Env :=
  sample_env (fun _ => None) (fun _ _ => None) None
    (ListenNoCallback "EADDRINUSE") None None None.

(** The stdio transport cannot be connected. *)
Definition connect_fails : Env :=
  sample_env (fun _ => None) (fun _ _ => None) (Some "EPIPE")
    (ListenCallback None) None None None.

(** A listener of the ready event raises. *)
Definition ready_listener_raises : Env :=
  sample_env (fun ev => match ev with
                        | serverReady _ _ => Some "listener failed"
                        | _ => None
                        end)
    (fun _ _ => None) None (ListenCallback None) None None None.

(** The engine refuses a name it already has, as the SDK does. *)
Definition strict_engine : Env :=
  sample_env (fun _ => None) rejects_duplicates None (ListenCallback None)
    None None None.

(** The running HTTP server with the response object of one incoming
    request. *)
Definition http_with_response : World :=
  (new_Response http_running).1.2.

(** The engine cannot be connected and a listener of the request-failed
    event raises. *)
Definition failed_listener_raises : Env :=
  sample_env (fun ev => match ev with
                        | requestFailed _ _ => Some "listener failed"
                        | _ => None
                        end)
    (fun _ _ => None) (Some "connect failed") (ListenCallback None)
    None None None.

(** The per-request transport cannot be built. *)
Definition transport_unavailable : Env :=
  sample_env (fun _ => None) (fun _ _ => None) None (ListenCallback None)
    None (Some "no transport") None.

(** A listener of the request-received event raises. *)
Definition received_listener_raises : Env :=
  sample_env (fun ev => match ev with
                        | requestReceived _ => Some "listener failed"
                        | _ => None
                        end)
    (fun _ _ => None) None (ListenCallback None) None None None.

(** Every collaborator succeeds, and [handleRequest] returns before the
    reply is written: the request stays in flight. *)
Definition in_flight : Env :=
  {| listener_raises := fun _ => None;
     icons_ellipsis := "...";
     new_McpServer_raises := None;
     registerTool_raises := fun _ _ => None;
     connect_raises := None;
     findFreePort := inr 4001;
     listen := ListenCallback None;
     httpServer_close := HttpCloseCallback None;
     close_raises := None;
     new_transport_raises := None;
     transport_close_raises := None;
     handleRequest := {| ho_reply := None; ho_error := None |} |}.

(** ** The specification's wording

    The sentences of the specification that the code does not satisfy as
    they are worded, stated over the embedding. *)

(** The specification's wording of C1: the teardown of one request leaves
    the protocol-handling context of another request in flight (its
    transport and the engine handle it is bound to) untouched. *)
Definition requests_are_isolated : Prop :=
  forall env1 env2 env3 hs s server r1 r2 w,
    httpServers (heap w) !! hs = Some s ->
    hs_routes s = mcp_routes server ->
    req_method r1 = POST -> req_path r1 = "/mcp" ->
    req_method r2 = POST -> req_path r2 = "/mcp" ->
    let response1 := length (responses (heap w)) in
    let response2 := S response1 in
    let w1 := (expressApp_handle env1 hs r1 w).1.2 in
    let w2 := (expressApp_handle env2 hs r2 w1).1.2 in
    let closed := connection_close env3 response1 w2 in
    forall l2,
      l2 ∈ context w2 response2 ->
      transports (heap closed.1.2) !! cl_transport l2 =
        transports (heap w2) !! cl_transport l2 /\
      servers (heap closed.1.2) !! cl_server l2 =
        servers (heap w2) !! cl_server l2 /\
      ~ In (Call (ServerClose (cl_server l2))) closed.2.

(** The specification's wording of C2: whenever [start()] raises [e], the
    start-failed event carrying [e] was emitted and the controller is not
    running. *)
Definition start_failure_contract : Prop :=
  forall options env w e w' t,
    isRunning w = false ->
    start options env w = (Throw e, w', t) ->
    In (Emit (serverStartError e)) t /\ isRunning w' = false.

(** The same for a failure of the bind: whenever [listen] is called and
    reports the error [e] (to its callback or on the server's error
    channel), [start()] emits the start-failed event with [e], raises [e]
    and leaves the controller not running. *)
Definition bind_failure_is_broadcast : Prop :=
  forall options env w e o w' t,
    isRunning w = false ->
    listen env = ListenCallback (Some e) \/ listen env = ListenNoCallback e ->
    start options env w = (o, w', t) ->
    (exists port host, In (Call (Listen port host)) t) ->
    In (Emit (serverStartError e)) t /\ o = Throw e /\ isRunning w' = false.

(** The specification's wording of C3: after a teardown step raised, the
    controller is not running. *)
Definition failed_stop_leaves_idle : Prop :=
  forall env w e o w' t,
    isRunning w = true ->
    listener_raises env serverStopping = None ->
    teardown_raises env (vars w) e ->
    stop env w = (o, w', t) ->
    o = Throw e /\
    In (Log error "Error stopping server" [("error", e)]) t /\
    isRunning w' = false.

(** The specification's wording of C4: in a [stop()] that returns, no handle
    is cleared before both closes are done. *)
Definition handles_cleared_after_both_closes : Prop :=
  forall env w w' t s,
    isRunning w = true ->
    stop env w = (Ret (), w', t) ->
    ~ precedes (Assign (SetHttpServer None)) (Call (ServerClose s)) t.


(** The specification's wording of C6: whatever the engine answers,
    [registerTools(tools)] leaves the registry extended by [tools]. *)
Definition registerTools_always_appends : Prop :=
  forall env tools w,
    registeredTools (vars (registerTools env tools w).1.2) =
      registeredTools (vars w) ++ tools.

(** The specification's wording of C7: for every request that reached the
    handler, closing its connection emits request-completed once. *)
Definition completion_is_always_signalled : Prop :=
  forall env1 env2 hs s server request w,
    httpServers (heap w) !! hs = Some s ->
    hs_routes s = mcp_routes server ->
    req_method request = POST ->
    req_path request = "/mcp" ->
    let response := length (responses (heap w)) in
    let w1 := (expressApp_handle env1 hs request w).1.2 in
    length (List.filter is_requestCompleted
              (connection_close env2 response w1).2) = 1.

(** The specification's wording of C8: whenever the steps of the handler
    raise before anything was sent, the response is the 500 with the
    internal-error payload. *)
Definition failure_is_always_answered : Prop :=
  forall env server request response w e w1 t1 r,
    mcp_request_steps env server request response w = (Throw e, w1, t1) ->
    responses (heap w1) !! response = Some r ->
    headersSent r = false ->
    exists r',
      responses (heap (createMcpRequestHandler env server request response w).1.2)
        !! response = Some r' /\
      statusCode r' = 500 /\ body r' = Some internal_server_error.

(** The specification's wording of C9: every verb but POST is answered with
    405 and the method-not-allowed payload. *)
Definition every_other_verb_is_rejected : Prop :=
  forall env hs s server request w,
    httpServers (heap w) !! hs = Some s ->
    hs_routes s = mcp_routes server ->
    req_path request = "/mcp" ->
    req_method request <> POST ->
    exists response handler w' t r,
      expressApp_handle env hs request w = (Ret (response, handler), w', t) /\
      responses (heap w') !! response = Some r /\
      statusCode r = 405 /\ body r = Some method_not_allowed.

(** ** Further vocabulary: the rest of the controller *)


Definition is_findFreePort (i : Item) : bool :=
  match i with Call FindFreePort => true | _ => false end.

Definition is_listen (i : Item) : bool :=
  match i with Call (Listen _ _) => true | _ => false end.

Definition is_ready (i : Item) : bool :=
  match i with Emit (serverReady _ _) => true | _ => false end.

Definition is_new_engine (i : Item) : bool :=
  match i with Call (NewMcpServer _) => true | _ => false end.

Definition is_server_close (i : Item) : bool :=
  match i with Call (ServerClose _) => true | _ => false end.

(** The closure variables hold nothing of a run: no handle, not running, no
    connection info. *)
Definition idle (v : Vars) : Prop :=
  mcpServer v = None /\ httpServer v = None /\
  isServerRunning v = false /\ connectionInfo v = None.

(** The tool lists of the [registerTools] calls of [calls] that returned,
    in call order, the calls being made one after the other from [w]. *)
Fixpoint accepted_tools (options : McpServerOptions) (calls : list (Env * Op))
    (w : World) : list AnyTool :=
  match calls with
  | [] => []
  | (env, op) :: rest =>
      match run_op options env op w with
      | (o, w1, _) =>
          match op, o with
          | OpRegisterTools tools, Ret _ => tools
          | _, _ => []
          end ++ accepted_tools options rest w1
      end
  end.

(** The engine the controller holds, if any, has been given exactly the
    registry. *)
Definition engine_mirrors_registry (w : World) : Prop :=
  forall server,
    mcpServer (vars w) = Some server ->
    exists s, servers (heap w) !! server = Some s /\
              srv_tools s = registeredTools (vars w).

(** The engine of [env] accepts every tool. *)
Definition accepting (env : Env) : Prop :=
  forall s t, registerTool_raises env s t = None.

(** HTTP options without a port: [start] asks for a free one. *)
Definition http_any_port_options : McpServerOptions :=
  {| opt_name := "demo"; opt_version := "1.0.0"; opt_description := Some "";
     opt_tools := None; opt_transport := http; opt_port := None |}.


Definition is_starting (i : Item) : bool :=
  match i with Emit serverStarting => true | _ => false end.

(** A connection is held open: the close callback of the socket is never
    invoked. *)
Definition held_open : Env :=
  {| listener_raises := fun _ => None;
     icons_ellipsis := "...";
     new_McpServer_raises := None;
     registerTool_raises := fun _ _ => None;
     connect_raises := None;
     findFreePort := inr 4001;
     listen := ListenCallback None;
     httpServer_close := HttpCloseNoCallback;
     close_raises := None;
     new_transport_raises := None;
     transport_close_raises := None;
     handleRequest := {| ho_reply := Some (200, JNull); ho_error := None |} |}.

(** A listener of the starting and of the stopping event raises. *)
Definition announce_listener_raises : Env :=
  sample_env (fun ev => match ev with
                        | serverStarting | serverStopping => Some "listener failed"
                        | _ => None
                        end)
    (fun _ _ => None) None (ListenCallback None) None None None.

(** What a request or a connection close leaves alone: the closure
    variables, what each engine has registered, the HTTP server objects; and
    it emits no lifecycle event and builds no engine. *)
Definition untouched (w w' : World) (t : Trace) : Prop :=
  vars w' = vars w /\
  (forall i, srv_tools <$> servers (heap w') !! i =
             srv_tools <$> servers (heap w) !! i) /\
  httpServers (heap w') = httpServers (heap w) /\
  List.filter is_lifecycle_event t = [] /\
  List.filter is_new_engine t = [].

(** A short session: register, start, register again. *)
Definition session : list (Env * Op) :=
  [ (calm, OpRegisterTools [add]); (calm, OpStart);
    (calm, OpRegisterTools [add]); (calm, OpRequest 0 (post_mcp 1));
    (calm, OpConnectionClose 0) ].

Definition is_registerTool (i : Item) : bool :=
  match i with Call (RegisterTool _ _) => true | _ => false end.

Definition is_teardown_call (i : Item) : bool :=
  match i with
  | Call (TransportClose _) | Call (ServerClose _) => true
  | _ => false
  end.

(** The error of the two close steps of a request's teardown, if any: the
    transport's, or else the engine's. *)
Definition teardown_error (env : Env) : option Err :=
  match transport_close_raises env with
  | Some e => Some e
  | None => close_raises env
  end.

(** What a listener leaves unhandled when the chain of the close listener
    ends: what the request-completed listener raised, or else what the
    request-failed listener raised. *)
Definition teardown_unhandled (env : Env) (l : CloseListener) (response : nat)
  : list Item :=
  match listener_raises env (requestCompleted (cl_request l) response) with
  | Some e => [Uncaught e]
  | None =>
      match teardown_error env with
      | Some e =>
          match listener_raises env (requestFailed (cl_request l) e) with
          | Some e' => [Uncaught e']
          | None => []
          end
      | None => []
      end
  end.

(** The trace of the close listener [l] of [response]. *)
Definition teardown_trace (env : Env) (l : CloseListener) (response : nat)
  : Trace :=
  Call (TransportClose (cl_transport l)) ::
  match transport_close_raises env with
  | None => [Call (ServerClose (cl_server l))]
  | Some _ => []
  end ++
  match teardown_error env with
  | Some e => [Emit (requestFailed (cl_request l) e)]
  | None => []
  end ++
  Emit (requestCompleted (cl_request l) response) ::
  teardown_unhandled env l response.

(** The engine [s] after it has accepted [tools], in order. *)
Definition engine_with (tools : list AnyTool) (s : McpServer) : McpServer :=
  fold_left (fun s tool => srv_add_tool tool s) tools s.

(** Closing a request's transport fails. *)
Definition transport_close_fails : Env :=
  sample_env (fun _ => None) (fun _ _ => None) None (ListenCallback None)
    None None (Some "transport close failed").

Definition is_close_call (i : Item) : bool :=
  match i with
  | Call (HttpClose _) | Call (ServerClose _) | Call (TransportClose _) => true
  | _ => false
  end.

Definition is_send (i : Item) : bool :=
  match i with Call (SendJson _ _ _) => true | _ => false end.

(** * Proofs *)

Ltac unfold_m :=
  unfold emit, logger, tell, raise_if, throw, pending, get_vars, get_heap,
    put_heap, assign, try_catch, finally_, in_callback, detached,
    mbind, M_bind, bind, mret, M_ret, ret in *.

(** ** Traces *)

Lemma replay_app t1 t2 v : replay (t1 ++ t2) v = replay t2 (replay t1 v).
Proof. unfold replay. apply foldl_app. Qed.

Lemma replay_cons i t v : replay (i :: t) v = replay t (replay [i] v).
Proof. reflexivity. Qed.

Lemma no_assign_app t1 t2 :
  no_assign (t1 ++ t2) = no_assign t1 && no_assign t2.
Proof. apply forallb_app. Qed.

Lemma registration_no_assign t :
  forallb is_registration t = true -> no_assign t = true.
Proof.
  induction t as [|i t IH]; [done|]. simpl. intros [Hi Ht]%andb_prop.
  rewrite (IH Ht). by destruct i.
Qed.

Lemma replay_no_assign t v : no_assign t = true -> replay t v = v.
Proof.
  revert v. induction t as [|i t IH]; intros v H; [reflexivity|].
  simpl in H. apply andb_prop in H as [Hi Ht].
  rewrite replay_cons, (IH _ Ht). by destruct i.
Qed.

Lemma filter_bind_registration t :
  forallb is_registration t = true -> List.filter is_bind t = [].
Proof.
  induction t as [|i t IH]; [done|]. simpl. intros [Hi Ht]%andb_prop.
  rewrite (IH Ht). destruct i as [| | [] | |]; done.
Qed.

Lemma along_app I t1 t2 v :
  along I t1 v -> along I t2 (replay t1 v) -> along I (t1 ++ t2) v.
Proof.
  revert v. induction t1 as [|i t1 IH]; intros v H1 H2.
  - exact H2.
  - destruct H1 as [Hv H1]. split; [done|]. apply IH; [done|].
    by rewrite replay_cons in H2.
Qed.

Lemma along_no_assign I t v : no_assign t = true -> I v -> along I t v.
Proof.
  revert v. induction t as [|i t IH]; intros v H Hv; simpl; [done|].
  simpl in H. apply andb_prop in H as [Hi Ht]. split; [done|].
  apply IH; [done|]. by destruct i.
Qed.

Lemma along_holds I t v : along I t v -> holds_along I t v.
Proof.
  revert v. induction t as [|i t IH]; intros v H pre post E.
  - symmetry in E. apply app_eq_nil in E as [-> _]. exact H.
  - simpl in H. destruct H as [Hv H]. destruct pre as [|j pre].
    + exact Hv.
    + simpl in E. injection E as <- E. rewrite replay_cons.
      by eapply IH.
Qed.

Lemma along_end I t v : along I t v -> I (replay t v).
Proof.
  intros H. apply along_holds in H. apply (H t []). by rewrite app_nil_r.
Qed.

(** ** [pushToolsToServer] *)

Lemma push_outcome_registration env server s tools :
  forallb is_registration (push_outcome env server s tools).2 = true.
Proof.
  revert s. induction tools as [|tool rest IH]; intros s; simpl; [done|].
  destruct (registerTool_raises env s tool); [done|].
  specialize (IH (srv_add_tool tool s)).
  destruct (push_outcome env server (srv_add_tool tool s) rest) as [[o s'] t].
  simpl in *. done.
Qed.

Lemma push_outcome_accepted env server s tools s' t :
  push_outcome env server s tools = (None, s', t) ->
  srv_tools s' = srv_tools s ++ tools /\
  srv_transport s' = srv_transport s /\
  t = registration_trace env server tools.
Proof.
  revert s s' t. induction tools as [|tool rest IH]; intros s s' t H; simpl in *.
  - injection H as <- <-. by rewrite app_nil_r.
  - destruct (registerTool_raises env s tool); [done|].
    destruct (push_outcome env server (srv_add_tool tool s) rest)
      as [[o s1] t1] eqn:E.
    injection H as -> <- <-. apply IH in E as (-> & -> & ->).
    simpl. by rewrite <- app_assoc.
Qed.

Lemma set_servers_insert_id h i s :
  servers h !! i = Some s -> set_servers (<[i:=s]> (servers h)) h = h.
Proof.
  intros H. rewrite list_insert_id by done. by destruct h.
Qed.

Lemma new_server_lookup (l : list McpServer) s :
  (l ++ [s]) !! length l = Some s.
Proof. by apply list_lookup_middle. Qed.

(** The loop of [pushToolsToServer] on a live engine computes [push_outcome]. *)
Lemma pushToolsToServer_eq env server tools w s :
  servers (heap w) !! server = Some s ->
  pushToolsToServer env server tools w =
    match push_outcome env server s tools with
    | (o, s', t) =>
        (outcome_of o,
         {| vars := vars w;
            heap := set_servers (<[server:=s']> (servers (heap w))) (heap w) |},
         t)
    end.
Proof.
  revert w s. induction tools as [|tool rest IH]; intros w s Hs; simpl.
  - unfold_m. rewrite set_servers_insert_id by done. by destruct w.
  - unfold registerTool. unfold_m. simpl. rewrite Hs.
    destruct (registerTool_raises env s tool) as [e|] eqn:Hrej; simpl.
    + rewrite set_servers_insert_id by done. by destruct w.
    + erewrite IH; last first.
      { simpl. apply list_lookup_insert_eq. by eapply lookup_lt_Some. }
      destruct (push_outcome env server (srv_add_tool tool s) rest)
        as [[o s1] t1].
      simpl. rewrite list_insert_insert_eq. by destruct o.
Qed.

(** ** Symbolic execution *)

Section WP.
Context {A : Type}.
Implicit Types (Q : Outcome A -> World -> Trace -> Prop) (w : World).

Lemma wp_elim (m : M A) Q w o w' t :
  wp m Q w -> m w = (o, w', t) -> Q o w' t.
Proof. unfold wp. intros H E. by rewrite E in H. Qed.

Lemma wp_intro (m : M A) Q w :
  (forall o w' t, m w = (o, w', t) -> Q o w' t) -> wp m Q w.
Proof. unfold wp. intros H. destruct (m w) as [[o w'] t]. by apply H. Qed.

Lemma wp_mono (m : M A) Q Q' w :
  wp m Q w -> (forall o w' t, Q o w' t -> Q' o w' t) -> wp m Q' w.
Proof. unfold wp. destruct (m w) as [[o w'] t]. auto. Qed.

Lemma wp_ret (a : A) Q w : Q (Ret a) w [] -> wp (mret a) Q w.
Proof. done. Qed.

Lemma wp_throw e Q w : Q (Throw e) w [] -> wp (throw e) Q w.
Proof. done. Qed.

Lemma wp_pending Q w : Q Pending w [] -> wp pending Q w.
Proof. done. Qed.

Lemma wp_bind {B} (m : M B) (f : B -> M A) Q w :
  wp m (fun o w1 t1 =>
          match o with
          | Ret b => wp (f b) (fun o2 w2 t2 => Q o2 w2 (t1 ++ t2)) w1
          | Throw e => Q (Throw e) w1 t1
          | Pending => Q Pending w1 t1
          end) w ->
  wp (m ≫= f) Q w.
Proof.
  unfold wp, mbind, M_bind, bind. destruct (m w) as [[[b|e|] w1] t1]; try done.
  by destruct (f b w1) as [[o2 w2] t2].
Qed.

Lemma wp_try_catch (m : M A) (h : Err -> M A) Q w :
  wp m (fun o w1 t1 =>
          match o with
          | Throw e => wp (h e) (fun o2 w2 t2 => Q o2 w2 (t1 ++ t2)) w1
          | _ => Q o w1 t1
          end) w ->
  wp (try_catch m h) Q w.
Proof.
  unfold wp, try_catch. destruct (m w) as [[[b|e|] w1] t1]; try done.
  by destruct (h e w1) as [[o2 w2] t2].
Qed.

End WP.

Section WPUnit.
Implicit Types (Q : Outcome unit -> World -> Trace -> Prop) (w : World).

Lemma wp_tell i Q w : Q (Ret ()) w [i] -> wp (tell i) Q w.
Proof. done. Qed.

Lemma wp_logger lvl msg ctx Q w :
  Q (Ret ()) w [Log lvl msg ctx] -> wp (logger lvl msg ctx) Q w.
Proof. done. Qed.

Lemma wp_raise_if o Q w : Q (outcome_of o) w [] -> wp (raise_if o) Q w.
Proof. by destruct o. Qed.

Lemma wp_emit env ev Q w :
  Q (outcome_of (listener_raises env ev)) w [Emit ev] -> wp (emit env ev) Q w.
Proof.
  unfold wp, emit, tell, raise_if, mbind, M_bind, bind, throw, mret, M_ret, ret.
  by destruct (listener_raises env ev).
Qed.

Lemma wp_put_heap h Q w :
  Q (Ret ()) {| vars := vars w; heap := h |} [] -> wp (put_heap h) Q w.
Proof. done. Qed.

Lemma wp_assign a Q w :
  Q (Ret ()) {| vars := apply_assign a (vars w); heap := heap w |} [Assign a] ->
  wp (assign a) Q w.
Proof. done. Qed.

Lemma wp_finally (m f : M unit) Q w :
  wp m (fun o w1 t1 =>
          match o with
          | Pending => Q Pending w1 t1
          | _ => wp f (fun o2 w2 t2 =>
                         Q (match o2 with Ret _ => o | _ => o2 end) w2 (t1 ++ t2)) w1
          end) w ->
  wp (finally_ m f) Q w.
Proof.
  unfold wp, finally_. destruct (m w) as [[[[]|e|] w1] t1]; try done.
  - by destruct (f w1) as [[[[]|e2|] w2] t2].
  - by destruct (f w1) as [[[[]|e2|] w2] t2].
Qed.

Lemma wp_in_callback (m : M unit) Q w :
  wp m (fun o w1 t1 =>
          match o with
          | Throw e => Q Pending w1 (t1 ++ [Uncaught e])
          | _ => Q o w1 t1
          end) w ->
  wp (in_callback m) Q w.
Proof. unfold wp, in_callback. by destruct (m w) as [[[[]|e|] w1] t1]. Qed.

Lemma wp_detached (m : M unit) Q w :
  wp m (fun o w1 t1 =>
          match o with
          | Throw e => Q (Ret ()) w1 (t1 ++ [Uncaught e])
          | _ => Q (Ret ()) w1 t1
          end) w ->
  wp (detached m) Q w.
Proof. unfold wp, detached. by destruct (m w) as [[[[]|e|] w1] t1]. Qed.

End WPUnit.

Lemma wp_get_vars {A} (f : Vars -> M A) Q w :
  wp (f (vars w)) Q w -> wp (get_vars ≫= f) Q w.
Proof.
  unfold wp, mbind, M_bind, bind, get_vars. simpl.
  destruct (f (vars w) w) as [[o w'] t]. done.
Qed.

Lemma wp_get_heap {A} (f : Heap -> M A) Q w :
  wp (f (heap w)) Q w -> wp (get_heap ≫= f) Q w.
Proof.
  unfold wp, mbind, M_bind, bind, get_heap. simpl.
  destruct (f (heap w) w) as [[o w'] t]. done.
Qed.

(** What a push does whatever the engine answers: the closure variables
    stay, the trace is made of log lines and registrations, it settles. *)
Lemma pushToolsToServer_any env server tools w o w' t :
  pushToolsToServer env server tools w = (o, w', t) ->
  vars w' = vars w /\ forallb is_registration t = true /\ o <> Pending.
Proof.
  revert w o w' t.
  induction tools as [|tool rest IH]; intros w o w' t E; simpl in E.
  - by injection E as <- <- <-.
  - unfold logger, registerTool in E. unfold_m. simpl in E.
    destruct (servers (heap w) !! server) as [s|] eqn:Hs; simpl in E.
    + destruct (registerTool_raises env s tool) as [e|]; simpl in E.
      * by injection E as <- <- <-.
      * match type of E with
        | context [pushToolsToServer env server rest ?w1] =>
            destruct (pushToolsToServer env server rest w1)
              as [[o1 w1'] t1] eqn:E1
        end.
        apply IH in E1 as (Hv & Hr & Ho). simpl in Hv.
        destruct o1 as [[]|e1|]; by simplify_eq/=.
    + match type of E with
      | context [pushToolsToServer env server rest ?w1] =>
          destruct (pushToolsToServer env server rest w1)
            as [[o1 w1'] t1] eqn:E1
      end.
      apply IH in E1 as (Hv & Hr & Ho).
      destruct o1 as [[]|e1|]; by simplify_eq/=.
Qed.

Lemma wp_push_any env server tools Q w :
  (forall o w' t,
     vars w' = vars w -> forallb is_registration t = true -> o <> Pending ->
     Q o w' t) ->
  wp (pushToolsToServer env server tools) Q w.
Proof.
  intros H. apply wp_intro. intros o w' t E.
  apply pushToolsToServer_any in E as (? & ? & ?). by apply H.
Qed.

(** The same on a live engine, with the engine's answer. *)
Lemma wp_push env server tools Q w s :
  servers (heap w) !! server = Some s ->
  (forall o s' t,
     push_outcome env server s tools = (o, s', t) ->
     forallb is_registration t = true ->
     Q (outcome_of o)
       {| vars := vars w;
          heap := set_servers (<[server:=s']> (servers (heap w))) (heap w) |} t) ->
  wp (pushToolsToServer env server tools) Q w.
Proof.
  intros Hs H. unfold wp. rewrite (pushToolsToServer_eq _ _ _ _ _ Hs).
  pose proof (push_outcome_registration env server s tools) as Hreg.
  destruct (push_outcome env server s tools) as [[o s'] t] eqn:E.
  by apply H.
Qed.

Arguments wp : simpl never.

(** One step of symbolic execution: the rule of the head construct, or a
    case split on what the program branches on. *)
Ltac wp_step :=
  lazymatch goal with
  | |- wp (mret _) _ _ => apply wp_ret
  | |- wp (get_vars ≫= _) _ _ => apply wp_get_vars
  | |- wp (get_heap ≫= _) _ _ => apply wp_get_heap
  | |- wp (_ ≫= _) _ _ => apply wp_bind
  | |- wp (try_catch _ _) _ _ => apply wp_try_catch
  | |- wp (finally_ _ _) _ _ => apply wp_finally
  | |- wp (in_callback _) _ _ => apply wp_in_callback
  | |- wp (detached _) _ _ => apply wp_detached
  | |- wp (tell _) _ _ => apply wp_tell
  | |- wp (logger _ _ _) _ _ => apply wp_logger
  | |- wp (emit _ _) _ _ => apply wp_emit
  | |- wp (raise_if _) _ _ => apply wp_raise_if
  | |- wp (throw _) _ _ => apply wp_throw
  | |- wp pending _ _ => apply wp_pending
  | |- wp (put_heap _) _ _ => apply wp_put_heap
  | |- wp (assign _) _ _ => apply wp_assign
  | |- wp (new_McpServer _ _ _ _) _ _ => unfold new_McpServer
  | |- wp (new_Transport _ _) _ _ => unfold new_Transport
  | |- wp (new_Response) _ _ => unfold new_Response
  | |- wp (connect _ _ _) _ _ => unfold connect
  | |- wp (close _ _) _ _ => unfold close
  | |- wp (transport_close _ _) _ _ => unfold transport_close
  | |- wp (send_json _ _ _) _ _ => unfold send_json
  | |- wp (transport_handleRequest _ _ _ _) _ _ => unfold transport_handleRequest
  | |- wp (response_on_close _ _) _ _ => unfold response_on_close
  | |- wp (call_findFreePort _) _ _ => unfold call_findFreePort
  | |- wp (expressApp_listen _ _ _ _ _) _ _ => unfold expressApp_listen
  | |- wp (await_httpServer_close _ _) _ _ => unfold await_httpServer_close
  | |- wp (createUnsupportedMethodHandler _ _ _) _ _ =>
      unfold createUnsupportedMethodHandler
  | |- wp (createMcpRequestHandler _ _ _ _) _ _ => unfold createMcpRequestHandler
  | |- wp (mcp_request_steps _ _ _ _) _ _ => unfold mcp_request_steps
  | |- wp (close_listener _ _ _ _ _) _ _ => unfold close_listener
  | |- wp (run_handler _ _ _ _) _ _ => unfold run_handler
  | |- wp (match ?x with _ => _ end) _ _ => destruct x eqn:?
  | |- wp (if ?x then _ else _) _ _ => destruct x eqn:?
  | |- match outcome_of ?o with _ => _ end => destruct o eqn:?
  | |- match match outcome_of ?o with _ => _ end with _ => _ end =>
      destruct o eqn:?
  end; simpl.

Ltac wp_run := repeat wp_step.

(** ** [start] *)




Ltac count_binds :=
  simpl; rewrite ?List.filter_app, ?length_app; simpl;
  repeat match goal with
    | H : List.filter is_bind _ = [] |- _ => rewrite H
    end; simpl; try lia.

(** [start] binds at most once. *)
Lemma start_binds_once options env w :
  wp (start options env) (fun _ _ t => binds t <= 1) w.
Proof.
  unfold start, binds. wp_step.
  destruct (isServerRunning (vars w)) eqn:Hrun; [wp_run; lia|].
  wp_run; try (simpl; lia).
  unfold start_body. wp_run; try (simpl; lia).
  all: try (apply wp_push_any;
            intros [[]| |] w1 t1 Hv Hr%filter_bind_registration Ho;
            try done; simpl).
  all: wp_run; count_binds.
Qed.

(** ** Frames: what the calls leave alone *)

Ltac frame_leaf :=
  simpl; rewrite ?no_assign_app; simpl;
  repeat match goal with
    | H : no_assign _ = true |- _ => rewrite H
    | H : vars _ = _ |- _ => rewrite H
    end; simpl; try done.

Lemma registerTools_frame env tools w :
  wp (registerTools env tools)
     (fun o w' t =>
        o <> Pending /\
        mcpServer (vars w') = mcpServer (vars w) /\
        httpServer (vars w') = httpServer (vars w) /\
        isServerRunning (vars w') = isServerRunning (vars w) /\
        connectionInfo (vars w') = connectionInfo (vars w)) w.
Proof.
  unfold registerTools. wp_run; [|done].
  apply wp_push_any. intros [[]| |] w1 t1 Hv Hr Ho; try done; simpl.
  all: wp_run; by rewrite Hv.
Qed.

Lemma run_handler_frame env h request response w :
  wp (run_handler env h request response)
     (fun o w' t => o <> Pending /\ vars w' = vars w /\ no_assign t = true) w.
Proof.
  destruct h; simpl; wp_run.
  all: repeat (match goal with
               | |- context [ho_reply ?x] => destruct (ho_reply x) as [[??]|] eqn:?
               end; simpl; wp_run).
  all: frame_leaf.
Qed.

Lemma run_close_listeners_frame env response ls w :
  wp (run_close_listeners env response ls)
     (fun o w' t => o = Ret () /\ vars w' = vars w /\ no_assign t = true) w.
Proof.
  revert w. induction ls as [|l ls IH]; intros w; simpl; [by wp_run|].
  wp_run.
  all: eapply wp_mono; [apply IH|]; simpl; intros o w' t (-> & Hv & Ht); simpl.
  all: frame_leaf.
Qed.

Lemma connection_close_frame env response w :
  wp (connection_close env response)
     (fun o w' t => o = Ret () /\ vars w' = vars w /\ no_assign t = true) w.
Proof.
  unfold connection_close. wp_run; [|done].
  apply run_close_listeners_frame.
Qed.

Lemma expressApp_handle_frame env hs request w :
  wp (expressApp_handle env hs request)
     (fun o w' t => (exists r, o = Ret r) /\ vars w' = vars w /\ no_assign t = true) w.
Proof.
  unfold expressApp_handle. wp_run; eauto.
  all: eapply wp_mono; [apply run_handler_frame|]; simpl.
  all: intros [[]|e|] w' t (Ho & Hv & Ht); try done; simpl; wp_run.
  all: frame_leaf; eauto.
Qed.

(** ** Redundant lifecycle calls *)







(** ** The lifecycle invariant *)

Ltac inv_leaf :=
  repeat match goal with
    | |- _ /\ _ => split
    | |- along _ (_ ++ _) _ => apply along_app
    | H : forallb is_registration ?t = true |- along _ ?t _ =>
        apply along_no_assign; [by apply registration_no_assign|]
    | H : forallb is_registration ?t = true |- context [replay ?t _] =>
        rewrite (replay_no_assign t) by (by apply registration_no_assign)
    | |- context [replay (_ ++ _) _] => rewrite replay_app
    | |- along _ (_ :: _) _ => simpl
    | |- along _ [] _ => simpl
    end.

Lemma start_keeps_invariant options env w :
  lifecycle_invariant options (vars w) ->
  wp (start options env)
     (fun _ w' t =>
        along (lifecycle_invariant options) t (vars w) /\
        vars w' = replay t (vars w)) w.
Proof.
  intros HI. unfold start. wp_step.
  destruct (isServerRunning (vars w)) eqn:Hrun; [by wp_run|].
  wp_run; try done.
  unfold start_body. wp_run; try done.
  all: try (apply wp_push_any; intros [[]| |] w1 t1 Hv Hr Ho; try done;
            simpl in Hv; simpl).
  all: wp_run.
  all: inv_leaf.
  all: rewrite ?Hv; simpl; unfold lifecycle_invariant in *; simpl;
    rewrite ?Hrun; try done.
  all: try (intros _; eexists; split; [reflexivity|simpl; congruence]).
Qed.

Lemma stop_keeps_invariant options env w :
  lifecycle_invariant options (vars w) ->
  wp (stop env)
     (fun _ w' t =>
        along (lifecycle_invariant options) t (vars w) /\
        vars w' = replay t (vars w)) w.
Proof.
  intros HI. unfold stop. wp_step.
  destruct (isServerRunning (vars w)) eqn:Hrun; simpl; [|by wp_run].
  wp_run; try done.
  unfold stop_body. wp_run.
  all: inv_leaf.
  all: simpl; unfold lifecycle_invariant in *; simpl; try done.
Qed.

Lemma registerTools_keeps_invariant options env tools w :
  lifecycle_invariant options (vars w) ->
  wp (registerTools env tools)
     (fun _ w' t =>
        along (lifecycle_invariant options) t (vars w) /\
        vars w' = replay t (vars w)) w.
Proof.
  intros HI. unfold registerTools. wp_run.
  - apply wp_push_any. intros [[]| |] w1 t1 Hv Hr Ho; try done; simpl.
    all: wp_run; inv_leaf; rewrite ?Hv; simpl; try done.
  - inv_leaf; simpl; done.
Qed.

Lemma quiet_keeps_invariant {A} options (m : M A) w :
  lifecycle_invariant options (vars w) ->
  wp m (fun _ w' t => vars w' = vars w /\ no_assign t = true) w ->
  wp m (fun _ w' t =>
          along (lifecycle_invariant options) t (vars w) /\
          vars w' = replay t (vars w)) w.
Proof.
  intros HI H. eapply wp_mono; [exact H|]. simpl. intros o w' t [Hv Ht].
  split; [by apply along_no_assign|]. by rewrite replay_no_assign.
Qed.

Lemma run_op_keeps_invariant options env op w :
  lifecycle_invariant options (vars w) ->
  wp (run_op options env op)
     (fun _ w' t =>
        along (lifecycle_invariant options) t (vars w) /\
        vars w' = replay t (vars w)) w.
Proof.
  intros HI. destruct op as [tools| | | |hs request|response]; simpl.
  - by apply registerTools_keeps_invariant.
  - by apply start_keeps_invariant.
  - by apply stop_keeps_invariant.
  - unfold restart. apply wp_bind.
    eapply wp_mono; [by apply (stop_keeps_invariant options)|]. simpl.
    intros o w1 t1 [Ha Hv]. destruct o as [[]|e|]; try done.
    eapply wp_mono.
    { apply (start_keeps_invariant options). rewrite Hv. by apply along_end. }
    simpl. intros o2 w2 t2 [Ha2 Hv2]. split.
    + apply along_app; [done|]. by rewrite <- Hv.
    + by rewrite replay_app, <- Hv.
  - apply quiet_keeps_invariant; [done|]. apply wp_bind.
    eapply wp_mono; [apply expressApp_handle_frame|]. simpl.
    intros o w' t ([r ->] & Hv & Ht). apply wp_ret. by rewrite app_nil_r.
  - apply quiet_keeps_invariant; [done|].
    eapply wp_mono; [apply connection_close_frame|]. simpl.
    by intros o w' t (_ & Hv & Ht).
Qed.

Lemma reachable_invariant options w :
  reachable options w -> lifecycle_invariant options (vars w).
Proof.
  induction 1 as [|env op w Hw IH]; [done|].
  pose proof (run_op_keeps_invariant options env op w IH) as H. unfold wp in H.
  destruct (run_op options env op w) as [[o w'] t]. simpl.
  destruct H as [Ha ->]. by apply along_end.
Qed.

(** C10. In every reachable world of the controller, and at every point
    inside a call (after any prefix of its assignments to the closure
    variables), [isRunning()] implies that the connection info is defined
    and that its transport tag is the transport kind of the options the
    controller was built with. *)
Theorem running_implies_connection_info options :
  (forall w,
     reachable options w -> isRunning w = true ->
     exists ci, status_connectionInfo (getStatus w) = Some ci /\
                conn_transport ci = opt_transport options) /\
  (forall v, observable options v -> lifecycle_invariant options v).
Proof.
  split.
  - intros w Hw Hrun. by apply (reachable_invariant options w Hw).
  - intros v (w & env & op & pre & post & Hw & Ht & ->).
    pose proof (run_op_keeps_invariant options env op w
                  (reachable_invariant options w Hw)) as H.
    unfold wp in H. destruct (run_op options env op w) as [[o w'] t].
    simpl in Ht. destruct H as [Ha _]. by apply (along_holds _ _ _ Ha pre post).
Qed.

Lemma running_implies_connection_info_witness :
  exists ci, status_connectionInfo (getStatus http_running) = Some ci /\
             conn_transport ci = http.
Proof.
  apply (proj1 (running_implies_connection_info http_options) http_running).
  - apply (reachable_call http_options calm OpStart (buildMCPServer http_options)).
    apply reachable_init.
  - reflexivity.
Defined.

(** ** [stop] *)

Lemma wp_exists {A} (m : M A) Q w :
  wp m Q w -> exists o w' t, m w = (o, w', t) /\ Q o w' t.
Proof.
  unfold wp. destruct (m w) as [[o w'] t]. intros H. by exists o, w', t.
Qed.

Lemma stop_success env w :
  isRunning w = true ->
  wp (stop env)
     (fun o w' t =>
        o = Ret () ->
        listener_raises env serverStopping = None /\
        t = stop_trace (vars w) /\
        vars w' = {| mcpServer := None; httpServer := None;
                     registeredTools := registeredTools (vars w);
                     isServerRunning := false; connectionInfo := None |}) w.
Proof.
  unfold isRunning, stop, stop_trace. intros Hrun. wp_step. rewrite Hrun. simpl.
  wp_run; try done.
  unfold stop_body. wp_run; try done.
  all: intros _; split; [done|]; split; [done|]; f_equal; congruence.
Qed.

Lemma stop_teardown_failure env w e :
  isRunning w = true ->
  listener_raises env serverStopping = None ->
  teardown_raises env (vars w) e ->
  wp (stop env)
     (fun o w' t =>
        o = Throw e /\
        last t = Some (Log error "Error stopping server" [("error", e)]) /\
        List.filter is_lifecycle_event t = [Emit serverStopping] /\
        isRunning w' = true /\
        connectionInfo (vars w') = connectionInfo (vars w) /\
        mcpServer (vars w') = mcpServer (vars w) /\
        httpServer (vars w') =
          match httpServer_close env with
          | HttpCloseRaise _ => httpServer (vars w)
          | HttpCloseCallback _ => None
          | HttpCloseNoCallback => httpServer (vars w)
          end) w.
Proof.
  unfold isRunning, stop, teardown_raises. intros Hrun Hl Hraise. wp_step.
  rewrite Hrun. simpl. wp_step. wp_step. rewrite Hl. simpl.
  unfold stop_body.
  destruct Hraise as [[[h Hh] Hc]|[Hh [[s Hs] Hc]]].
  - wp_run; simplify_eq/=; done.
  - wp_run; simplify_eq/=; try done.
    all: destruct Hh as [?|[? ?]]; simplify_eq/=.
    all: repeat split; try done.
    all: by destruct (httpServer_close env).
Qed.

(** C3, as worded, fails: [stop()] on the running HTTP server, the engine's
    [close()] raising, leaves [isRunning()] true. *)
Lemma failed_stop_leaves_idle_fails : ~ failed_stop_leaves_idle.
Proof.
  intros H.
  destruct (H engine_close_fails http_running "close failed" _ _ _
              eq_refl eq_refl
              (or_intror (conj (or_intror (ex_intro _ None eq_refl))
                               (conj (ex_intro _ 0 eq_refl) eq_refl)))
              eq_refl) as (_ & _ & Hidle).
  discriminate Hidle.
Qed.

(** C3 (amended). If a teardown step of [stop()] raises, [stop()] logs the
    error last and re-raises it; no stopped event is emitted, and the running
    flag, the connection info and the engine handle are left as they were:
    [isRunning()] is still true after the failed [stop()]. The socket handle
    is cleared if the socket was closed before the engine's close raised,
    and kept if closing the socket is what raised. *)
Theorem failed_stop_keeps_running env w e :
  isRunning w = true ->
  listener_raises env serverStopping = None ->
  teardown_raises env (vars w) e ->
  exists w' t,
    stop env w = (Throw e, w', t) /\
    last t = Some (Log error "Error stopping server" [("error", e)]) /\
    List.filter is_lifecycle_event t = [Emit serverStopping] /\
    isRunning w' = true /\
    connectionInfo (vars w') = connectionInfo (vars w) /\
    mcpServer (vars w') = mcpServer (vars w) /\
    httpServer (vars w') =
      match httpServer_close env with
      | HttpCloseRaise _ => httpServer (vars w)
      | HttpCloseCallback _ => None
      | HttpCloseNoCallback => httpServer (vars w)
      end.
Proof.
  intros Hrun Hl Hraise.
  destruct (wp_exists _ _ _ (stop_teardown_failure env w e Hrun Hl Hraise))
    as (o & w' & t & E & -> & H).
  by exists w', t.
Qed.

Lemma failed_stop_keeps_running_witness :
  exists w' t,
    stop engine_close_fails http_running = (Throw "close failed", w', t) /\
    last t = Some (Log error "Error stopping server" [("error", "close failed")]) /\
    isRunning w' = true /\
    httpServer (vars w') = None.
Proof.
  destruct (failed_stop_keeps_running engine_close_fails http_running
              "close failed" eq_refl eq_refl
              (or_intror (conj (or_intror (ex_intro _ None eq_refl))
                               (conj (ex_intro _ 0 eq_refl) eq_refl))))
    as (w' & t & E & Hlast & _ & Hrun & _ & _ & Hsock).
  exists w', t. repeat split; try done.
Defined.

(** C4, as worded, fails: stopping the running HTTP server clears the socket
    handle before the engine's [close()] is called. *)
Lemma handles_cleared_after_both_closes_fails :
  ~ handles_cleared_after_both_closes.
Proof.
  intros H. apply (H calm http_running _ _ 0 eq_refl eq_refl).
  exists [Emit serverStopping; Call (HttpClose 0)], [],
    [Assign (SetMcpServer None); Assign (SetIsServerRunning false);
     Assign (SetConnectionInfo None); Emit serverStopped].
  reflexivity.
Qed.

(** C4 (amended). A [stop()] that returns, from the running state, has made
    exactly these steps in this order: emit stopping; close the listening
    socket and clear its handle, when one is held; close the engine and
    clear its handle; only then clear the running flag and the connection
    info and emit stopped. No teardown step raised, and afterwards
    [getStatus().connectionInfo] is undefined and [isRunning()] is false. *)
Theorem stop_teardown_order env w w' t :
  isRunning w = true ->
  stop env w = (Ret (), w', t) ->
  t = stop_trace (vars w) /\
  (forall e, ~ teardown_raises env (vars w) e) /\
  mcpServer (vars w') = None /\ httpServer (vars w') = None /\
  status_connectionInfo (getStatus w') = None /\
  isRunning w' = false.
Proof.
  intros Hrun E.
  destruct (wp_elim _ _ _ _ _ _ (stop_success env w Hrun) E eq_refl)
    as (Hl & -> & Hv).
  split; [done|]. split.
  - intros e Hraise.
    pose proof (wp_elim _ _ _ _ _ _
                  (stop_teardown_failure env w e Hrun Hl Hraise) E) as [? _].
    done.
  - unfold getStatus, isRunning. by rewrite Hv.
Qed.

Lemma stop_teardown_order_witness :
  (stop calm http_running).2 =
    [Emit serverStopping; Call (HttpClose 0); Assign (SetHttpServer None);
     Call (ServerClose 0); Assign (SetMcpServer None);
     Assign (SetIsServerRunning false); Assign (SetConnectionInfo None);
     Emit serverStopped] /\
  status_connectionInfo (getStatus (stop calm http_running).1.2) = None /\
  isRunning (stop calm http_running).1.2 = false.
Proof.
  destruct (stop_teardown_order calm http_running
              (stop calm http_running).1.2 (stop calm http_running).2
              eq_refl eq_refl) as (Ht & _ & _ & _ & Hc & Hr).
  split; [exact Ht|]. split; [exact Hc|exact Hr].
Defined.

(** ** Failures of [start] *)

(** What [start] does around the body of its [try]. *)
Lemma start_catch options env w :
  isRunning w = false ->
  listener_raises env serverStarting = None ->
  start options env w =
    match start_body options env w with
    | (Throw e, w1, t1) =>
        (Throw (default e (listener_raises env (serverStartError e))), w1,
         Emit serverStarting :: t1 ++ [Emit (serverStartError e)])
    | (o, w1, t1) => (o, w1, Emit serverStarting :: t1)
    end.
Proof.
  unfold isRunning, start. unfold_m. intros -> ->. simpl.
  destruct (start_body options env w) as [[[[]|e|] w1] t1]; try done.
  destruct (listener_raises env (serverStartError e)); simpl;
    by rewrite ?app_nil_r.
Qed.

Lemma start_body_failure options env w :
  isRunning w = false ->
  wp (start_body options env)
     (fun o w1 t1 =>
        forall e, o = Throw e ->
        httpServer (vars w1) = httpServer (vars w) /\
        httpServers (heap w1) = httpServers (heap w) /\
        (mcpServer (vars w1) = mcpServer (vars w) \/
         mcpServer (vars w1) = Some (length (servers (heap w)))) /\
        (isRunning w1 = true ->
         opt_transport options = stdio /\
         listener_raises env
           (serverReady (Some ConnStdio) (registeredTools (vars w))) = Some e)) w.
Proof.
  unfold isRunning. intros Hrun. unfold start_body. wp_run.
  { intros e0 [= ->]. rewrite Hrun. naive_solver. }
  eapply wp_push; [apply new_server_lookup|].
  intros [e1|] s' t1 Hp Hr; simpl.
  { intros e0 [= ->]. rewrite Hrun. naive_solver. }
  wp_run.
  all: intros e0 Ho; simplify_eq/=; rewrite ?Hrun; try naive_solver.
  destruct (listener_raises env _) eqn:?; naive_solver.
Qed.

(** C2, as worded, fails. In stdio mode, a ready listener that raises makes
    [start()] raise while [isRunning()] is true. In HTTP mode with port 4000
    taken, [start()] does not raise and emits no start-failed event. *)
Lemma start_failure_contract_fails :
  ~ start_failure_contract /\ ~ bind_failure_is_broadcast.
Proof.
  split.
  - intros H.
    destruct (H stdio_options ready_listener_raises
                (buildMCPServer stdio_options) "listener failed" _ _
                eq_refl eq_refl) as [_ Hidle].
    discriminate Hidle.
  - intros H.
    destruct (H http_options port_in_use (buildMCPServer http_options)
                "EADDRINUSE" _ _ _ eq_refl (or_introl eq_refl) eq_refl)
      as (_ & Ho & _).
    + exists 4000, "localhost". vm_compute. tauto.
    + discriminate Ho.
Qed.

(** The same when the failure only reaches the server's error channel: the
    promise [start()] awaits never settles, nothing is emitted, and the
    handle of the server that failed to bind is kept. *)
Example bind_failure_never_settles :
  let r := start http_options port_in_use_silent (buildMCPServer http_options) in
  r.1.1 = Pending /\
  List.filter is_lifecycle_event r.2 = [Emit serverStarting] /\
  httpServer (vars r.1.2) = Some 0.
Proof. vm_compute. done. Qed.

(** A failed stdio connect: the event is emitted and the error re-raised,
    the controller is not running, and the engine handle is kept. *)
Example connect_failure_keeps_engine :
  let r := start stdio_options connect_fails (buildMCPServer stdio_options) in
  r.1.1 = Throw "EPIPE" /\
  List.filter is_lifecycle_event r.2 =
    [Emit serverStarting; Emit (serverStartError "EPIPE")] /\
  isRunning r.1.2 = false /\
  mcpServer (vars r.1.2) = Some 0.
Proof. vm_compute. done. Qed.

(** A ready listener that raises, in stdio mode: the error is broadcast and
    re-raised, yet the controller is running. *)
Example ready_listener_failure_leaves_running :
  let r := start stdio_options ready_listener_raises
             (buildMCPServer stdio_options) in
  r.1.1 = Throw "listener failed" /\
  In (Emit (serverStartError "listener failed")) r.2 /\
  isRunning r.1.2 = true.
Proof. vm_compute. tauto. Qed.

(** C2 (amended). For every error [e] raised by the body of the [try] of
    [start()] (building the engine, pushing the registry, connecting the
    stdio transport, finding a free port, a [listen] that raises at once, a
    ready listener in stdio mode), [start()] emits the start-failed event
    carrying [e] as its last step and raises [e], or what a listener of that
    event raised. On such a path no HTTP server object was created and the
    socket handle is as before, the engine handle is the old one or the new
    engine's (it is not cleared), and [isRunning()] is false afterwards
    unless [e] comes from a ready listener run after the stdio connect. *)
Theorem start_failure_is_broadcast options env w e w1 t1 :
  isRunning w = false ->
  listener_raises env serverStarting = None ->
  start_body options env w = (Throw e, w1, t1) ->
  start options env w =
    (Throw (default e (listener_raises env (serverStartError e))), w1,
     Emit serverStarting :: t1 ++ [Emit (serverStartError e)]) /\
  httpServer (vars w1) = httpServer (vars w) /\
  httpServers (heap w1) = httpServers (heap w) /\
  (mcpServer (vars w1) = mcpServer (vars w) \/
   mcpServer (vars w1) = Some (length (servers (heap w)))) /\
  (isRunning w1 = true ->
   opt_transport options = stdio /\
   listener_raises env
     (serverReady (Some ConnStdio) (registeredTools (vars w))) = Some e).
Proof.
  intros Hrun Hl E. split.
  - by rewrite (start_catch _ _ _ Hrun Hl), E.
  - by apply (wp_elim _ _ _ _ _ _ (start_body_failure options env w Hrun) E).
Qed.

Lemma start_failure_is_broadcast_witness :
  let r := start stdio_options connect_fails (buildMCPServer stdio_options) in
  r.1.1 = Throw "EPIPE" /\
  last r.2 = Some (Emit (serverStartError "EPIPE")) /\
  httpServer (vars r.1.2) = None /\
  (isRunning r.1.2 = true -> False).
Proof.
  destruct (start_failure_is_broadcast stdio_options connect_fails
              (buildMCPServer stdio_options) "EPIPE"
              (start_body stdio_options connect_fails
                 (buildMCPServer stdio_options)).1.2
              (start_body stdio_options connect_fails
                 (buildMCPServer stdio_options)).2
              eq_refl eq_refl eq_refl) as (E & Hh & _ & _ & Hr).
  cbv zeta. rewrite E. split; [reflexivity|]. split; [reflexivity|].
  split; [exact Hh|].
  intros H. apply Hr in H as [_ H]. discriminate H.
Defined.

(** ** [registerTools] *)

Lemma start_registers_registry options env w :
  isRunning w = false ->
  wp (start options env)
     (fun o w' t =>
        o = Ret () ->
        registeredTools (vars w') = registeredTools (vars w) /\
        mcpServer (vars w') = Some (length (servers (heap w))) /\
        exists s, servers (heap w') !! length (servers (heap w)) = Some s /\
                  srv_tools s = registeredTools (vars w)) w.
Proof.
  unfold isRunning, start. intros Hrun. wp_step. rewrite Hrun.
  wp_run; try done.
  unfold start_body. wp_run; try done.
  eapply wp_push; [apply new_server_lookup|].
  intros [e1|] s' t1 Hp Hr; simpl; [wp_run; done|].
  apply push_outcome_accepted in Hp as (Htools & _ & _). simpl in Htools.
  wp_run; try done.
  all: intros _; repeat split; try done.
  all: rewrite ?list_lookup_alter_eq, list_lookup_insert_eq
    by (rewrite length_app; simpl; lia).
  all: by eexists.
Qed.

Lemma registerTools_returns env tools w :
  wp (registerTools env tools)
     (fun o w' t =>
        o = Ret () ->
        registeredTools (vars w') = registeredTools (vars w) ++ tools) w.
Proof.
  unfold registerTools. wp_run; [|done].
  apply wp_push_any. intros [[]| |] w1 t1 Hv Hr Ho; try done; simpl.
  wp_run. by rewrite Hv.
Qed.

(** C6, as worded, fails: on the running HTTP server, whose engine already
    has [echo] and refuses duplicates, [registerTools([add; echo])] raises
    after [add] went into the engine, and the registry is not extended. *)
Lemma registerTools_always_appends_fails : ~ registerTools_always_appends.
Proof.
  intros H. specialize (H strict_engine [add; echo] http_running).
  vm_compute in H. discriminate H.
Qed.

Example registerTools_rejected :
  let r := registerTools strict_engine [add; echo] http_running in
  r.1.1 = Throw "Tool echo is already registered" /\
  status_tools (getStatus r.1.2) = [echo] /\
  (srv_tools <$> servers (heap r.1.2) !! 0) = Some [echo; add].
Proof. vm_compute. done. Qed.

(** C6 (amended). [registerTools(tools)] pushes [tools] into the live
    engine, one registration per tool in call order, exactly when an engine
    handle is held, and then, if the engine accepted them all, appends them
    to the registry in call order (if the engine refuses one, the call
    raises there and the registry is left as it was). Consequently a tool
    registered before a [start()] that returns, or after it and accepted,
    is in [getStatus().tools] and registered with the engine the controller
    holds, and no engine is rebuilt for it. *)
Theorem registerTools_appends_and_pushes options env env' tools w :
  let appended :=
    apply_assign (SetRegisteredTools (registeredTools (vars w) ++ tools))
      (vars w) in
  (mcpServer (vars w) = None ->
   registerTools env tools w =
     (Ret (), {| vars := appended; heap := heap w |},
      [Assign (SetRegisteredTools (registeredTools (vars w) ++ tools))])) /\
  (forall server s,
     mcpServer (vars w) = Some server ->
     servers (heap w) !! server = Some s ->
     match push_outcome env server s tools with
     | (None, s', _) =>
         registerTools env tools w =
           (Ret (),
            {| vars := appended;
               heap := set_servers (<[server:=s']> (servers (heap w))) (heap w) |},
            registration_trace env server tools ++
            [Assign (SetRegisteredTools (registeredTools (vars w) ++ tools))]) /\
         srv_tools s' = srv_tools s ++ tools
     | (Some e, s', t) =>
         registerTools env tools w =
           (Throw e,
            {| vars := vars w;
               heap := set_servers (<[server:=s']> (servers (heap w))) (heap w) |},
            t)
     end) /\
  (forall w1 t1 w2 t2,
     isRunning w = false ->
     registerTools env tools w = (Ret (), w1, t1) ->
     start options env' w1 = (Ret (), w2, t2) ->
     tools ⊆ status_tools (getStatus w2) /\
     exists server s,
       mcpServer (vars w2) = Some server /\
       servers (heap w2) !! server = Some s /\
       srv_tools s = status_tools (getStatus w2)).
Proof.
  intros appended. split; [|split].
  - intros Hm. unfold registerTools. unfold_m. by rewrite Hm.
  - intros server s Hm Hs. unfold registerTools. unfold_m. rewrite Hm.
    rewrite (pushToolsToServer_eq _ _ _ _ _ Hs).
    destruct (push_outcome env server s tools) as [[[e|] s'] t] eqn:Hp; [done|].
    apply push_outcome_accepted in Hp as (Ht & _ & ->). done.
  - intros w1 t1 w2 t2 Hrun E1 E2.
    pose proof (wp_elim _ _ _ _ _ _ (registerTools_returns env tools w) E1
                  eq_refl) as Hreg.
    pose proof (wp_elim _ _ _ _ _ _ (registerTools_frame env tools w) E1)
      as (_ & _ & _ & Hr1 & _).
    assert (isRunning w1 = false) as Hrun1 by (unfold isRunning in *; congruence).
    destruct (wp_elim _ _ _ _ _ _ (start_registers_registry options env' w1 Hrun1)
                E2 eq_refl) as (Hreg2 & Hm2 & s & Hs & Htools).
    unfold getStatus. simpl. rewrite Hreg2, Hreg. split.
    + intros x Hx. apply elem_of_app. by right.
    + exists (length (servers (heap w1))), s. by rewrite Htools, Hreg.
Qed.

Lemma registerTools_appends_and_pushes_witness :
  let r := registerTools calm [add] http_running in
  r.1.1 = Ret () /\
  status_tools (getStatus r.1.2) = [echo; add] /\
  (srv_tools <$> servers (heap r.1.2) !! 0) = Some [echo; add] /\
  r.2 = [Log info "Registering tool..." [("name", "add")];
         Call (RegisterTool 0 add);
         Assign (SetRegisteredTools [echo; add])].
Proof.
  destruct (registerTools_appends_and_pushes http_options calm calm [add]
              http_running) as (_ & H & _).
  specialize (H 0 _ eq_refl eq_refl). simpl in H. destruct H as [E _].
  cbv zeta. rewrite E. vm_compute. done.
Defined.

(** ** The verbs of the endpoint *)

Lemma start_installs_routes options env w :
  isRunning w = false ->
  opt_transport options = http ->
  wp (start options env)
     (fun o w' t =>
        o = Ret () ->
        exists hs s,
          httpServer (vars w') = Some hs /\
          httpServers (heap w') !! hs = Some s /\
          hs_host s = "localhost" /\
          hs_routes s = mcp_routes (length (servers (heap w))) /\
          mcpServer (vars w') = Some (length (servers (heap w)))) w.
Proof.
  unfold isRunning, start. intros Hrun Hhttp. wp_step. rewrite Hrun.
  wp_run; try done.
  unfold start_body. wp_run; try done.
  eapply wp_push; [apply new_server_lookup|].
  intros [e1|] s' t1 Hp Hr; simpl; [wp_run; done|].
  rewrite Hhttp. wp_run; try done.
  all: intros _; eexists _, _; split; [reflexivity|].
  all: split; [apply list_lookup_middle; reflexivity|done].
Qed.

(** C9, as worded, fails: a PUT on the endpoint of the running HTTP server
    meets no route of the controller, and its response is left untouched. *)
Lemma every_other_verb_is_rejected_fails : ~ every_other_verb_is_rejected.
Proof.
  intros H.
  destruct (H calm 0 _ 0 (verb_mcp PUT) http_running eq_refl eq_refl eq_refl)
    as (response & handler & w' & t & r & E & Hr & Hs & _); [done|].
  vm_compute in E. injection E as <- <- <- <-.
  vm_compute in Hr. injection Hr as <-. discriminate Hs.
Qed.

(** C9 (amended). The routes [start()] installs in HTTP mode are the POST
    handler and the unsupported-method handler for GET and for DELETE. A
    GET or a DELETE on the endpoint (and a HEAD, which express gives to the
    GET route) is answered at once with status 405 and the method-not-allowed
    payload, after a warning and with no action of the isolation layer. A
    verb other than these and POST meets no route of the controller: no
    handler of this program runs. *)
Theorem unsupported_verbs_are_rejected options env env' hs s server request w :
  (forall w0 w1 t1,
     isRunning w0 = false -> opt_transport options = http ->
     start options env' w0 = (Ret (), w1, t1) ->
     exists hs1 s1 server1,
       httpServer (vars w1) = Some hs1 /\
       httpServers (heap w1) !! hs1 = Some s1 /\
       mcpServer (vars w1) = Some server1 /\
       hs_routes s1 = mcp_routes server1) /\
  (httpServers (heap w) !! hs = Some s ->
   hs_routes s = mcp_routes server ->
   req_path request = "/mcp" ->
   req_method request <> POST ->
   let response := length (responses (heap w)) in
   match unsupported_route (req_method request) with
   | Some verb =>
       exists w',
         expressApp_handle env hs request w =
           (Ret (response, Some (UnsupportedMethodHandler verb)), w',
            [Call (NewResponse response);
             Log warn "Unsupported HTTP method"
               [("path", "/mcp"); ("method", verb)];
             Call (SendJson response 405 method_not_allowed)]) /\
         responses (heap w') !! response =
           Some {| headersSent := true; statusCode := 405;
                   body := Some method_not_allowed; on_close := [] |} /\
         List.filter is_isolation_action
           (expressApp_handle env hs request w).2 = []
   | None =>
       exists w',
         expressApp_handle env hs request w =
           (Ret (response, None), w', [Call (NewResponse response)])
   end).
Proof.
  split.
  - intros w0 w1 t1 Hrun Hhttp E.
    destruct (wp_elim _ _ _ _ _ _ (start_installs_routes options env' w0 Hrun Hhttp)
                E eq_refl) as (hs1 & s1 & ? & ? & ? & ? & ?).
    by exists hs1, s1, (length (servers (heap w0))).
  - intros Hs Hroutes Hpath Hverb response.
    unfold expressApp_handle, new_Response. unfold_m. simpl.
    rewrite Hs, Hroutes. unfold mcp_routes, route_handles. simpl.
    rewrite Hpath. simpl.
    destruct (req_method request) eqn:Hm; try done; simpl.
    all: unfold createUnsupportedMethodHandler, send_json, logger; unfold_m; simpl.
    all: eexists; try reflexivity.
    all: split; [reflexivity|]; simpl; split; [|reflexivity].
    all: rewrite list_lookup_alter_eq, list_lookup_middle by done; done.
Qed.

Lemma unsupported_verbs_are_rejected_witness :
  let r := expressApp_handle calm 0 (verb_mcp GET) http_running in
  r.1.1 = Ret (0, Some (UnsupportedMethodHandler "GET")) /\
  (statusCode <$> responses (heap r.1.2) !! 0) = Some 405 /\
  (body <$> responses (heap r.1.2) !! 0) = Some (Some method_not_allowed).
Proof.
  destruct (unsupported_verbs_are_rejected http_options calm calm 0
              {| hs_port := 4000; hs_host := "localhost";
                 hs_routes := mcp_routes 0; hs_listening := true |}
              0 (verb_mcp GET) http_running) as [_ H].
  destruct (H eq_refl eq_refl eq_refl) as (w' & E & Hr & _); [done|].
  cbv zeta. rewrite E. simpl in *. by rewrite Hr.
Defined.

(** ** Failures of a request *)

(** C8, as worded, fails: when a listener of the request-failed event
    raises, the handler stops there and nothing is sent. *)
Lemma failure_is_always_answered_fails : ~ failure_is_always_answered.
Proof.
  intros H.
  destruct (H failed_listener_raises 0 (post_mcp 1) 0 http_with_response
              "connect failed" _ _ _ eq_refl eq_refl eq_refl)
    as (r' & Hr & Hs & _).
  vm_compute in Hr. injection Hr as <-. discriminate Hs.
Qed.

(** C8 (amended). Whenever a step of the request handler (the
    request-received emission, building the transport, connecting the
    engine, forwarding the request) raises [e], the handler emits the
    request-failed event carrying [e]. If a listener of that event raises,
    the handler raises in turn and sends nothing. Otherwise the handler
    returns, and it has sent status 500 with the internal-error payload
    exactly when the headers of the response were not sent yet. When no step
    raises, the handler does what its steps did and nothing more. *)
Theorem request_failure_is_reported env server request response w :
  (mcp_request_steps env server request response w).1.1 =
    request_steps_outcome env request /\
  match mcp_request_steps env server request response w with
  | (Throw e, w1, t1) =>
      exists o w' t2,
        createMcpRequestHandler env server request response w =
          (o, w', t1 ++ Emit (requestFailed request e) :: t2) /\
        match listener_raises env (requestFailed request e) with
        | Some e' => o = Throw e' /\ w' = w1 /\ t2 = []
        | None =>
            o = Ret () /\
            match responses (heap w1) !! response with
            | Some r =>
                if headersSent r then w' = w1 /\ t2 = []
                else
                  t2 = [Call (SendJson response 500 internal_server_error)] /\
                  responses (heap w') !! response =
                    Some (resp_send 500 internal_server_error r)
            | None => w' = w1 /\ t2 = []
            end
        end
  | (o, w1, t1) =>
      createMcpRequestHandler env server request response w = (o, w1, t1)
  end.
Proof.
  split.
  { cut (wp (mcp_request_steps env server request response)
           (fun o _ _ => o = request_steps_outcome env request) w).
    { unfold wp.
      by destruct (mcp_request_steps env server request response w)
        as [[o w1] t1]. }
    unfold request_steps_outcome. wp_run; try done.
    all: destruct (ho_reply (handleRequest env)) as [[??]|]; wp_run; done. }
  unfold createMcpRequestHandler, try_catch.
  destruct (mcp_request_steps env server request response w)
    as [[[[]|e|] w1] t1]; try done.
  unfold send_json. unfold_m. simpl.
  destruct (listener_raises env (requestFailed request e)) as [e'|]; simpl.
  { eexists _, _, _. split; [reflexivity|done]. }
  destruct (responses (heap w1) !! response) as [r|] eqn:Hr; simpl.
  - destruct (headersSent r) eqn:Hsent; simpl.
    + eexists _, _, _. split; [reflexivity|done].
    + eexists _, _, _. split; [reflexivity|]. split; [done|]. split; [done|].
      simpl. by rewrite list_lookup_alter_eq, Hr.
  - eexists _, _, _. split; [reflexivity|done].
Qed.

(** ** Completion of a request *)

Lemma post_request_context env hs s server request w :
  httpServers (heap w) !! hs = Some s ->
  hs_routes s = mcp_routes server ->
  req_method request = POST ->
  req_path request = "/mcp" ->
  wp (expressApp_handle env hs request)
     (fun o w' t =>
        o = Ret (length (responses (heap w)), Some (McpRequestHandler server)) /\
        context w' (length (responses (heap w))) =
          if registers_teardown env request
          then [ {| cl_transport := length (transports (heap w));
                    cl_server := server; cl_request := request |} ]
          else []) w.
Proof.
  intros Hs Hroutes Hm Hp. unfold expressApp_handle, registers_teardown.
  wp_step. unfold new_Response. wp_run; simplify_eq/=.
  all: match goal with
       | H : find _ _ = _ |- _ =>
           rewrite Hroutes in H; unfold mcp_routes, route_handles in H;
           simpl in H; rewrite Hm, Hp in H; simpl in H; simplify_eq/=
       end.
  wp_run.
  all: repeat (match goal with
               | |- context [ho_reply ?x] =>
                   destruct (ho_reply x) as [[??]|] eqn:?
               end; simpl; wp_run).
  all: split; [done|]; unfold context; simpl.
  all: repeat (rewrite ?list_lookup_alter_eq, ?list_lookup_middle by done; simpl).
  all: repeat match goal with
         | H : ?x = _ |- context [bool_decide (?x = None)] => rewrite H
         end; simpl; try done.
Qed.

Lemma close_with_listener env response l w :
  context w response = [l] ->
  wp (connection_close env response)
     (fun o w' t =>
        o = Ret () /\
        List.filter is_requestCompleted t =
          [Emit (requestCompleted (cl_request l) response)] /\
        (forall e,
           request_teardown_raises env e ->
           precedes (Emit (requestFailed (cl_request l) e))
                    (Emit (requestCompleted (cl_request l) response)) t) /\
        ((forall e, ~ request_teardown_raises env e) ->
         List.filter is_requestFailed t = [])) w.
Proof.
  unfold context, connection_close, request_teardown_raises. intros Hctx.
  wp_step. destruct (responses (heap w) !! response) as [r|]; [|done].
  simpl. rewrite Hctx. simpl. wp_run.
  all: split; [done|]; split; [done|]; split.
  all: try (intros e' [?|[? ?]]; simplify_eq/=;
            first [ by eexists [_], [], _
                  | by eexists [_; _], [], _ ]).
  all: try done.
  all: intros Hno; exfalso; eapply Hno; eauto.
Qed.

Lemma close_without_listener env response w :
  context w response = [] ->
  connection_close env response w = (Ret (), w, []).
Proof.
  unfold context, connection_close. unfold_m. intros Hctx.
  destruct (responses (heap w) !! response) as [r|]; [|done].
  by rewrite Hctx.
Qed.

(** C7, as worded, fails: when building the transport raises, the handler
    answers 500 but has registered no close listener, and the close of the
    connection emits nothing. *)
Lemma completion_is_always_signalled_fails : ~ completion_is_always_signalled.
Proof.
  intros H.
  specialize (H transport_unavailable calm 0 _ 0 (post_mcp 1) http_running
                eq_refl eq_refl eq_refl eq_refl).
  vm_compute in H. discriminate H.
Qed.

(** The same when a listener of the request-received event raises: the
    request is answered with the 500 and its close emits nothing. *)
Example early_failure_is_never_completed :
  let handled :=
    expressApp_handle received_listener_raises 0 (post_mcp 1) http_running in
  (statusCode <$> responses (heap handled.1.2) !! 0) = Some 500 /\
  List.filter is_requestFailed handled.2 =
    [Emit (requestFailed (post_mcp 1) "listener failed")] /\
  (connection_close calm 0 handled.1.2).2 = [].
Proof. vm_compute. done. Qed.

(** C7 (amended). A POST on the endpoint is taken by the request handler.
    If the handler got as far as registering its close listener (the
    request-received emission and the building of the transport did not
    raise), then the close of the connection emits request-completed for
    that request exactly once, whether the two teardown steps (closing the
    transport, then the engine) succeed or fail and whatever the listeners
    do; if a teardown step fails with [e], request-failed carrying [e] is
    emitted before request-completed, and if none fails no request-failed is
    emitted. If the handler did not get that far, the close of the
    connection emits nothing. *)
Theorem request_completed_once env1 env2 hs s server request w :
  httpServers (heap w) !! hs = Some s ->
  hs_routes s = mcp_routes server ->
  req_method request = POST ->
  req_path request = "/mcp" ->
  let response := length (responses (heap w)) in
  let handled := expressApp_handle env1 hs request w in
  let closed := connection_close env2 response handled.1.2 in
  handled.1.1 = Ret (response, Some (McpRequestHandler server)) /\
  closed.1.1 = Ret () /\
  if registers_teardown env1 request then
    List.filter is_requestCompleted closed.2 =
      [Emit (requestCompleted request response)] /\
    (forall e,
       request_teardown_raises env2 e ->
       precedes (Emit (requestFailed request e))
                (Emit (requestCompleted request response)) closed.2) /\
    ((forall e, ~ request_teardown_raises env2 e) ->
     List.filter is_requestFailed closed.2 = [])
  else closed.2 = [].
Proof.
  intros Hs Hroutes Hm Hp response handled closed.
  pose proof (post_request_context env1 hs s server request w Hs Hroutes Hm Hp)
    as H. unfold wp in H. fold handled in H.
  destruct handled as [[o w1] t1]. simpl in *. destruct H as [-> Hctx].
  split; [done|]. subst closed.
  destruct (registers_teardown env1 request).
  - pose proof (close_with_listener env2 response _ w1 Hctx) as H.
    unfold wp in H.
    destruct (connection_close env2 response w1) as [[o2 w2] t2]. simpl in *.
    by destruct H as (-> & ? & ? & ?).
  - by rewrite (close_without_listener env2 response w1 Hctx).
Qed.

Lemma request_completed_once_witness :
  let handled := expressApp_handle calm 0 (post_mcp 1) http_running in
  let closed := connection_close engine_close_fails 0 handled.1.2 in
  List.filter is_requestCompleted closed.2 =
    [Emit (requestCompleted (post_mcp 1) 0)] /\
  List.filter is_requestFailed closed.2 =
    [Emit (requestFailed (post_mcp 1) "close failed")].
Proof.
  destruct (request_completed_once calm engine_close_fails 0
              {| hs_port := 4000; hs_host := "localhost";
                 hs_routes := mcp_routes 0; hs_listening := true |}
              0 (post_mcp 1) http_running eq_refl eq_refl eq_refl eq_refl)
    as (_ & _ & H).
  simpl in H. destruct H as (H & _ & _). split; [exact H|].
  vm_compute. reflexivity.
Defined.

(** ** Concurrent requests *)

Lemma post_request_effect env hs s server request w :
  httpServers (heap w) !! hs = Some s ->
  hs_routes s = mcp_routes server ->
  req_method request = POST ->
  req_path request = "/mcp" ->
  wp (expressApp_handle env hs request)
     (fun o w' t =>
        httpServers (heap w') = httpServers (heap w) /\
        length (responses (heap w')) = S (length (responses (heap w))) /\
        (forall i, i < length (responses (heap w)) ->
                   responses (heap w') !! i = responses (heap w) !! i) /\
        transports (heap w') =
          transports (heap w) ++
          if registers_teardown env request then [sessionless_transport]
          else []) w.
Proof.
  intros Hs Hroutes Hm Hp. unfold expressApp_handle, registers_teardown.
  wp_step. unfold new_Response. wp_run; simplify_eq/=.
  all: match goal with
       | H : find _ _ = _ |- _ =>
           rewrite Hroutes in H; unfold mcp_routes, route_handles in H;
           simpl in H; rewrite Hm, Hp in H; simpl in H; simplify_eq/=
       end.
  wp_run.
  all: repeat (match goal with
               | |- context [ho_reply ?x] =>
                   destruct (ho_reply x) as [[??]|] eqn:?
               end; simpl; wp_run).
  all: split; [done|]; simpl.
  all: rewrite ?length_alter, ?length_app; simpl.
  all: split; [lia|].
  all: repeat match goal with
         | H : ?x = _ |- context [bool_decide (?x = None)] => rewrite H
         end; simpl; rewrite ?app_nil_r.
  all: split; [|done].
  all: intros i Hi; rewrite ?list_lookup_alter_ne by lia.
  all: by rewrite lookup_app_l.
Qed.

Lemma close_listener_calls env response l w :
  context w response = [l] ->
  wp (connection_close env response)
     (fun o w' t =>
        responses (heap w') = responses (heap w) /\
        (forall x, In (Call x) t ->
                   x = TransportClose (cl_transport l) \/
                   x = ServerClose (cl_server l)) /\
        In (Call (TransportClose (cl_transport l))) t /\
        (transport_close_raises env = None ->
         In (Call (ServerClose (cl_server l))) t)) w.
Proof.
  unfold context, connection_close. intros Hctx.
  wp_step. destruct (responses (heap w) !! response) as [r|]; [|done].
  simpl. rewrite Hctx. simpl. wp_run.
  all: split; [done|]; simpl.
  all: split; [|split; [tauto|intros ?; simplify_eq; tauto]].
  all: intros x Hx.
  all: repeat (destruct Hx as [Hx|Hx]; [simplify_eq; auto|]); done.
Qed.

(** The whole trace of the close listener of a request. *)
Lemma close_listener_trace env response l w :
  context w response = [l] ->
  wp (connection_close env response)
     (fun o w' t => o = Ret () /\ t = teardown_trace env l response) w.
Proof.
  unfold context, connection_close, teardown_trace, teardown_unhandled,
    teardown_error.
  intros Hc. wp_step.
  destruct (responses (heap w) !! response) as [r|]; [|done].
  rewrite Hc. simpl. wp_run.
  all: repeat match goal with
         | H : _ = Some _ |- _ => rewrite H
         | H : _ = None |- _ => rewrite H
         end; done.
Qed.

(** C1, as worded, fails: with two requests in flight on the running HTTP
    server, the close of the first connection closes the engine the second
    request is bound to. *)
Lemma requests_are_isolated_fails : ~ requests_are_isolated.
Proof.
  intros H.
  destruct (H in_flight in_flight calm 0 _ 0 (post_mcp 1) (post_mcp 2)
              http_running eq_refl eq_refl eq_refl eq_refl eq_refl eq_refl
              {| cl_transport := 1; cl_server := 0; cl_request := post_mcp 2 |})
    as (_ & _ & Hcall).
  - vm_compute. apply list_elem_of_here.
  - apply Hcall. vm_compute. tauto.
Qed.

(** What the first close does to the engine the second request uses, the
    engine's [close()] closing the transport it is connected to: the engine
    was connected to the second request's transport, and afterwards it is
    connected to nothing and that transport is closed. *)
Example close_of_first_unbinds_second :
  let w1 := (expressApp_handle in_flight 0 (post_mcp 1) http_running).1.2 in
  let w2 := (expressApp_handle in_flight 0 (post_mcp 2) w1).1.2 in
  let closed := connection_close calm 0 w2 in
  (srv_transport <$> servers (heap w2) !! 0) = Some (Some 1) /\
  (tr_closed <$> transports (heap w2) !! 1) = Some false /\
  (srv_transport <$> servers (heap closed.1.2) !! 0) = Some None /\
  (tr_closed <$> transports (heap closed.1.2) !! 1) = Some true /\
  List.filter is_isolation_action closed.2 =
    [Call (TransportClose 0); Call (ServerClose 0);
     Emit (requestCompleted (post_mcp 1) 0)].
Proof. vm_compute. done. Qed.

(** C1. The failing input: on the running HTTP server two POSTs are in
    flight, each with a transport of its own (0 and 1) and a close listener
    that names it, and both close listeners name the one engine of the
    route, engine 0. The connection of the first request closes while the
    second is still open: its listener calls [close()] on transport 0 and
    then on engine 0, the engine handle of the second request's context
    (and not on the second request's transport). So closing one request's
    connection closes what another request depends on, which the claim
    excludes. *)
Theorem closing_one_request_closes_the_shared_engine :
  let w1 := (expressApp_handle in_flight 0 (post_mcp 1) http_running).1.2 in
  let w2 := (expressApp_handle in_flight 0 (post_mcp 2) w1).1.2 in
  let closed := connection_close calm 0 w2 in
  context w2 0 =
    [ {| cl_transport := 0; cl_server := 0; cl_request := post_mcp 1 |} ] /\
  context w2 1 =
    [ {| cl_transport := 1; cl_server := 0; cl_request := post_mcp 2 |} ] /\
  closed.2 =
    [Call (TransportClose 0); Call (ServerClose 0);
     Emit (requestCompleted (post_mcp 1) 0)] /\
  In (Call (ServerClose 0)) closed.2 /\
  ~ In (Call (TransportClose 1)) closed.2.
Proof.
  cbv zeta. split; [reflexivity|]. split; [reflexivity|].
  split; [reflexivity|].
  change (In (Call (ServerClose 0))
            [Call (TransportClose 0); Call (ServerClose 0);
             Emit (requestCompleted (post_mcp 1) 0)] /\
          ~ In (Call (TransportClose 1))
              [Call (TransportClose 0); Call (ServerClose 0);
               Emit (requestCompleted (post_mcp 1) 0)]).
  split; [simpl; tauto|].
  simpl. intros [H|[H|[H|[]]]]; discriminate H.
Qed.

(** What does hold of the isolation of requests, in general: every POST
    gets a transport of its own, built for it, session-less and distinct
    from the transport of any other request, and its close listener names
    that transport; all requests are bound to the one engine handle the
    route captured; and the close of the first connection runs the script of
    its own listener and nothing else: [close()] on the first request's
    transport and then, if that returned, on the shared engine. *)
Lemma requests_share_only_the_engine env1 env2 env3 hs s server r1 r2 w :
  httpServers (heap w) !! hs = Some s ->
  hs_routes s = mcp_routes server ->
  req_method r1 = POST -> req_path r1 = "/mcp" ->
  req_method r2 = POST -> req_path r2 = "/mcp" ->
  let response1 := length (responses (heap w)) in
  let response2 := S response1 in
  let w1 := (expressApp_handle env1 hs r1 w).1.2 in
  let w2 := (expressApp_handle env2 hs r2 w1).1.2 in
  let closed := connection_close env3 response1 w2 in
  forall l1 l2,
    l1 ∈ context w2 response1 ->
    l2 ∈ context w2 response2 ->
    (cl_transport l1 = length (transports (heap w)) /\
     cl_transport l2 = S (cl_transport l1) /\
     transports (heap w2) !! cl_transport l1 = Some sessionless_transport /\
     transports (heap w2) !! cl_transport l2 = Some sessionless_transport) /\
    (cl_server l1 = server /\ cl_server l2 = server) /\
    closed.2 = teardown_trace env3 l1 response1.
Proof.
  intros Hs Hroutes Hm1 Hp1 Hm2 Hp2 response1 response2 w1 w2 closed l1 l2.
  pose proof (post_request_context env1 hs s server r1 w Hs Hroutes Hm1 Hp1) as C1.
  pose proof (post_request_effect env1 hs s server r1 w Hs Hroutes Hm1 Hp1) as E1.
  unfold wp in C1, E1. subst closed w2 w1 response2 response1.
  destruct (expressApp_handle env1 hs r1 w) as [[o1 w1] t1]. simpl in *.
  destruct C1 as [_ C1]. destruct E1 as (Hh1 & Hl1 & Hr1 & Ht1).
  assert (httpServers (heap w1) !! hs = Some s) as Hs1 by by rewrite Hh1.
  pose proof (post_request_context env2 hs s server r2 w1 Hs1 Hroutes Hm2 Hp2) as C2.
  pose proof (post_request_effect env2 hs s server r2 w1 Hs1 Hroutes Hm2 Hp2) as E2.
  unfold wp in C2, E2.
  destruct (expressApp_handle env2 hs r2 w1) as [[o2 w2] t2]. simpl in *.
  destruct C2 as [_ C2]. destruct E2 as (Hh2 & Hl2 & Hr2 & Ht2).
  rewrite Hl1 in C2.
  assert (context w2 (length (responses (heap w))) =
          context w1 (length (responses (heap w)))) as Hsame.
  { unfold context. rewrite Hr2; [done|]. lia. }
  rewrite Hsame, C1, C2.
  destruct (registers_teardown env1 r1); [|by intros ?%elem_of_nil].
  destruct (registers_teardown env2 r2); [|by intros _ ?%elem_of_nil].
  intros ->%list_elem_of_singleton ->%list_elem_of_singleton. simpl.
  rewrite Ht2, Ht1, length_app. simpl.
  pose proof (close_listener_trace env3 (length (responses (heap w))) _ w2
                (eq_trans Hsame C1)) as Hc. unfold wp in Hc.
  destruct (connection_close env3 (length (responses (heap w))) w2)
    as [[o3 w3] t3]. simpl in *.
  split; [|split; [done|by destruct Hc]].
  split; [done|]. split; [lia|]. split.
  - rewrite <- app_assoc. by apply list_lookup_middle.
  - apply list_lookup_middle. by rewrite length_app.
Qed.

(** ** Scenarios *)

(** Built with port 4000 and started: the connection info is the HTTP one,
    on localhost and that port. *)
Example start_on_port_4000 :
  getStatus http_running =
    {| status_running := true; status_tools := [echo];
       status_connectionInfo := Some (ConnHttp "localhost" 4000) |}.
Proof. reflexivity. Qed.

(** In stdio mode there is no socket: the engine's close is the only
    teardown step of [stop()]. *)
Example stop_in_stdio_mode :
  (stop calm stdio_running).2 =
    [Emit serverStopping; Call (ServerClose 0); Assign (SetMcpServer None);
     Assign (SetIsServerRunning false); Assign (SetConnectionInfo None);
     Emit serverStopped].
Proof. reflexivity. Qed.

(** [restart()] ends running, with a new engine and a new socket. *)
Example restart_builds_anew :
  let r := restart http_options calm http_running in
  r.1.1 = Ret () /\ isRunning r.1.2 = true /\
  mcpServer (vars r.1.2) = Some 1 /\ httpServer (vars r.1.2) = Some 1 /\
  connectionInfo (vars r.1.2) = Some (ConnHttp "localhost" 4000).
Proof. vm_compute. done. Qed.

(** A [stop()] that fails aborts [restart()]: [start()] is not attempted. *)
Example restart_stops_at_a_failed_stop :
  let r := restart http_options engine_close_fails http_running in
  r.1.1 = Throw "close failed" /\
  List.filter is_lifecycle_event r.2 = [Emit serverStopping].
Proof. vm_compute. done. Qed.

(** * The rest of the controller *)

(** ** Classifying traces *)

Lemma filter_registration (f : Item -> bool) t :
  (forall i, is_registration i = true -> f i = false) ->
  forallb is_registration t = true -> List.filter f t = [].
Proof.
  intros Hf. induction t as [|i t IH]; [done|]. simpl.
  intros [Hi Ht]%andb_prop. by rewrite (Hf i Hi), (IH Ht).
Qed.

(** The classifiers that see nothing in the trace of a push. *)
Ltac registration_filters Hr :=
  pose proof (filter_registration is_listen _
                ltac:(by intros [| | [] | |]) Hr);
  pose proof (filter_registration is_ready _
                ltac:(by intros [| | [] | |]) Hr);
  pose proof (filter_registration is_findFreePort _
                ltac:(by intros [| | [] | |]) Hr);
  pose proof (filter_registration is_new_engine _
                ltac:(by intros [| | [] | |]) Hr);
  pose proof (filter_registration is_server_close _
                ltac:(by intros [| | [] | |]) Hr);
  pose proof (filter_registration is_lifecycle_event _
                ltac:(by intros [| | [] | |]) Hr).

Ltac simpl_filters :=
  simpl; rewrite ?List.filter_app; simpl;
  repeat match goal with
    | H : List.filter _ ?t = [] |- _ => rewrite H
    end; simpl.

(** ** What [start] leaves when it returns *)







(** X4. The ready event and the status agree. After a [start()] on a
    controller that was not running, whatever its outcome: either no ready
    event was emitted and the controller is not running, or exactly one was,
    carrying a connection info and a list of tools, and [getStatus()]
    afterwards is running with that connection info and those tools. *)
Theorem ready_event_matches_status options env w o w' t :
  isRunning w = false ->
  start options env w = (o, w', t) ->
  (List.filter is_ready t = [] /\ isRunning w' = false) \/
  (exists ci tools,
     List.filter is_ready t = [Emit (serverReady (Some ci) tools)] /\
     getStatus w' =
       {| status_running := true;
          status_tools := tools;
          status_connectionInfo := Some ci |}).
Proof.
  unfold isRunning, getStatus. intros Hrun E.
  cut (wp (start options env)
         (fun o w' t =>
            (List.filter is_ready t = [] /\ isServerRunning (vars w') = false) \/
            (exists ci tools,
               List.filter is_ready t = [Emit (serverReady (Some ci) tools)] /\
               {| status_running := isServerRunning (vars w');
                  status_tools := registeredTools (vars w');
                  status_connectionInfo := connectionInfo (vars w') |} =
               {| status_running := true;
                  status_tools := tools;
                  status_connectionInfo := Some ci |})) w).
  { intros H. by apply (wp_elim _ _ _ _ _ _ H E). }
  clear E. unfold start. wp_step. rewrite Hrun.
  wp_run; try (by left).
  unfold start_body. wp_run; try (by left).
  eapply wp_push; [apply new_server_lookup|].
  intros [e1|] s' t1 Hp Hr; registration_filters Hr; simpl.
  { wp_run. all: simpl_filters; by left. }
  wp_run.
  all: simpl_filters; rewrite ?Hrun.
  all: first [ by left | right; eexists _, _; split; reflexivity ].
Qed.

Lemma ready_event_matches_status_witness :
  getStatus http_running =
    {| status_running := true; status_tools := [echo];
       status_connectionInfo := Some (ConnHttp "localhost" 4000) |}.
Proof.
  destruct (ready_event_matches_status http_options calm
              (buildMCPServer http_options)
              (start http_options calm (buildMCPServer http_options)).1.1
              http_running
              (start http_options calm (buildMCPServer http_options)).2
              eq_refl eq_refl) as [[H _]|(ci & tools & H)].
  - discriminate H.
  - destruct H as [H Hs]. vm_compute in H. injection H as <- <-. exact Hs.
Defined.

(** X5. The lifecycle events of a [start()] on a controller that was not
    running follow one protocol: the starting event first, then at most one
    ready event, then at most one start-failed event, and nothing else. When
    [start()] returns there is a ready event and no start-failed event; when
    it raises [e], either the starting listener raised [e] and nothing else
    happened at all, or a start-failed event was emitted and [e] is what it
    carries or what its listener raised; it stays unsettled only in HTTP
    mode. *)
Theorem start_event_protocol options env w o w' t :
  isRunning w = false ->
  start options env w = (o, w', t) ->
  exists errs,
    List.filter is_lifecycle_event t =
      Emit serverStarting :: List.filter is_ready t ++ errs /\
    length (List.filter is_ready t) <= 1 /\
    match o with
    | Ret _ => errs = [] /\ List.filter is_ready t <> []
    | Throw e =>
        (listener_raises env serverStarting = Some e /\
         t = [Emit serverStarting] /\ w' = w /\ errs = []) \/
        (exists e0,
           errs = [Emit (serverStartError e0)] /\
           e = default e0 (listener_raises env (serverStartError e0)))
    | Pending => errs = [] /\ opt_transport options = http
    end.
Proof.
  unfold isRunning. intros Hrun E.
  cut (wp (start options env)
         (fun o w' t =>
            exists errs,
              List.filter is_lifecycle_event t =
                Emit serverStarting :: List.filter is_ready t ++ errs /\
              length (List.filter is_ready t) <= 1 /\
              match o with
              | Ret _ => errs = [] /\ List.filter is_ready t <> []
              | Throw e =>
                  (listener_raises env serverStarting = Some e /\
                   t = [Emit serverStarting] /\ w' = w /\ errs = []) \/
                  (exists e0,
                     errs = [Emit (serverStartError e0)] /\
                     e = default e0 (listener_raises env (serverStartError e0)))
              | Pending => errs = [] /\ opt_transport options = http
              end) w).
  { intros H. by apply (wp_elim _ _ _ _ _ _ H E). }
  clear E. unfold start. wp_step. rewrite Hrun.
  wp_run.
  { exists []. split; [done|]. split; [simpl; lia|]. left. by destruct w. }
  unfold start_body. wp_run.
  1-2: eexists; split; [reflexivity|]; split; [simpl; lia|]; right;
       eexists; split; [reflexivity|];
       by match goal with H : listener_raises _ _ = _ |- _ => rewrite H end.
  eapply wp_push; [apply new_server_lookup|].
  intros [e1|] s' t1 Hp Hr; registration_filters Hr; simpl.
  { wp_run.
    all: eexists; split; [simpl_filters; reflexivity|];
         split; [simpl_filters; lia|]; right;
         eexists; split; [reflexivity|];
         by match goal with H : listener_raises _ (serverStartError _) = _ |- _ =>
              rewrite H end. }
  wp_run.
  all: eexists; split; [simpl_filters; reflexivity|];
       split; [simpl_filters; lia|].
  all: try (split; [reflexivity|]; simpl_filters; done).
  all: try (right; eexists; split; [reflexivity|];
            by match goal with H : listener_raises _ (serverStartError _) = _ |- _ =>
                 rewrite H end).
Qed.

Lemma start_event_protocol_witness :
  length (List.filter is_ready
            (start stdio_options connect_fails
               (buildMCPServer stdio_options)).2) <= 1.
Proof.
  destruct (start_event_protocol stdio_options connect_fails
              (buildMCPServer stdio_options)
              (start stdio_options connect_fails
                 (buildMCPServer stdio_options)).1.1
              (start stdio_options connect_fails
                 (buildMCPServer stdio_options)).1.2
              (start stdio_options connect_fails
                 (buildMCPServer stdio_options)).2
              eq_refl eq_refl) as (errs & _ & H & _).
  exact H.
Defined.

(** ** What [stop] leaves *)

(** X6. A [stop()] on a running controller ends in one of three ways,
    whatever the collaborators and the listeners do. Either the stopped
    event was emitted, after the stopping event, and the controller is idle:
    not running, no engine handle, no socket handle, no connection info, the
    registry kept. Or no stopped event was emitted, [stop()] raised, and the
    controller still reports running with its connection info and registry
    unchanged. Or [stop()] never settles: it holds a socket whose close
    callback is never invoked; then only the stopping event was emitted, the
    engine's [close()] was not called, and every closure variable is as it
    was, so the controller still reports running. The stopped event is
    emitted exactly when the controller ends idle. *)
Theorem stopped_event_iff_idle env w o w' t :
  isRunning w = true ->
  stop env w = (o, w', t) ->
  (List.filter is_lifecycle_event t = [Emit serverStopping; Emit serverStopped] /\
   idle (vars w') /\
   registeredTools (vars w') = registeredTools (vars w)) \/
  (List.filter is_lifecycle_event t = [Emit serverStopping] /\
   (exists e, o = Throw e) /\
   isRunning w' = true /\
   connectionInfo (vars w') = connectionInfo (vars w) /\
   registeredTools (vars w') = registeredTools (vars w)) \/
  (List.filter is_lifecycle_event t = [Emit serverStopping] /\
   o = Pending /\
   httpServer_close env = HttpCloseNoCallback /\
   is_Some (httpServer (vars w)) /\
   List.filter is_server_close t = [] /\
   vars w' = vars w).
Proof.
  unfold isRunning, idle. intros Hrun E.
  cut (wp (stop env)
         (fun o w' t =>
            (List.filter is_lifecycle_event t =
               [Emit serverStopping; Emit serverStopped] /\
             (mcpServer (vars w') = None /\ httpServer (vars w') = None /\
              isServerRunning (vars w') = false /\
              connectionInfo (vars w') = None) /\
             registeredTools (vars w') = registeredTools (vars w)) \/
            (List.filter is_lifecycle_event t = [Emit serverStopping] /\
             (exists e, o = Throw e) /\
             isServerRunning (vars w') = true /\
             connectionInfo (vars w') = connectionInfo (vars w) /\
             registeredTools (vars w') = registeredTools (vars w)) \/
            (List.filter is_lifecycle_event t = [Emit serverStopping] /\
             o = Pending /\
             httpServer_close env = HttpCloseNoCallback /\
             is_Some (httpServer (vars w)) /\
             List.filter is_server_close t = [] /\
             vars w' = vars w)) w).
  { intros H. by apply (wp_elim _ _ _ _ _ _ H E). }
  clear E. unfold stop. wp_step. rewrite Hrun. simpl.
  wp_run.
  { right. left. eauto 10. }
  unfold stop_body. wp_run.
  all: first [ by left
             | right; left; simpl; by eauto 10
             | right; right; simpl; by eauto 10 ].
Qed.

Lemma stopped_event_iff_idle_witness :
  idle (vars (stop calm http_running).1.2).
Proof.
  destruct (stopped_event_iff_idle calm http_running
              (stop calm http_running).1.1 (stop calm http_running).1.2
              (stop calm http_running).2 eq_refl eq_refl)
    as [(_ & H & _)|[(H & _)|(H & _)]].
  - exact H.
  - discriminate H.
  - discriminate H.
Defined.

(** X7. The starting and the stopping event are emitted before the [try]
    block: when a listener of the starting event raises, [start()] raises
    that error having done nothing else, with no start-failed event; when a
    listener of the stopping event raises, [stop()] raises that error having
    closed nothing and logged nothing. The controller is as it was. *)
Theorem announce_listener_failure_escapes options env w e :
  (isRunning w = false ->
   listener_raises env serverStarting = Some e ->
   start options env w = (Throw e, w, [Emit serverStarting])) /\
  (isRunning w = true ->
   listener_raises env serverStopping = Some e ->
   stop env w = (Throw e, w, [Emit serverStopping])).
Proof.
  unfold isRunning. split; intros Hrun He.
  - destruct (start options env w) as [[o w'] t] eqn:E.
    cut (wp (start options env)
           (fun o w' t => (o, w', t) = (Throw e, w, [Emit serverStarting])) w).
    { intros H. by apply (wp_elim _ _ _ _ _ _ H E). }
    unfold start. wp_step. rewrite Hrun. wp_step. wp_step. rewrite He. simpl.
    by destruct w.
  - destruct (stop env w) as [[o w'] t] eqn:E.
    cut (wp (stop env)
           (fun o w' t => (o, w', t) = (Throw e, w, [Emit serverStopping])) w).
    { intros H. by apply (wp_elim _ _ _ _ _ _ H E). }
    unfold stop. wp_step. rewrite Hrun. simpl. wp_step. wp_step. rewrite He.
    simpl. by destruct w.
Qed.

Lemma announce_listener_failure_escapes_witness :
  start http_options announce_listener_raises (buildMCPServer http_options) =
    (Throw "listener failed", buildMCPServer http_options,
     [Emit serverStarting]) /\
  stop announce_listener_raises http_running =
    (Throw "listener failed", http_running, [Emit serverStopping]).
Proof.
  split.
  - apply (proj1 (announce_listener_failure_escapes http_options
                    announce_listener_raises (buildMCPServer http_options)
                    "listener failed")); reflexivity.
  - apply (proj2 (announce_listener_failure_escapes http_options
                    announce_listener_raises http_running
                    "listener failed")); reflexivity.
Defined.

(** ** [restart], and a start followed by a stop *)

(** The heap after a [stop()] that returns: the socket it held is no longer
    listening and the engine it held has closed. *)
Lemma stop_heap env w :
  isRunning w = true ->
  wp (stop env)
     (fun o w' t =>
        o = Ret () ->
        (servers (heap w') =
           match mcpServer (vars w) with
           | Some s => alter (srv_set_transport None) s (servers (heap w))
           | None => servers (heap w)
           end /\
         httpServers (heap w') =
           match httpServer (vars w) with
           | Some h => alter hs_stop h (httpServers (heap w))
           | None => httpServers (heap w)
           end) /\
        List.filter is_lifecycle_event t =
          [Emit serverStopping; Emit serverStopped]) w.
Proof.
  unfold isRunning, stop. intros Hrun. wp_step. rewrite Hrun. simpl.
  wp_run; try done.
  unfold stop_body. wp_run; try done.
  all: intros _; split; [|done].
  all: repeat match goal with H : _ = Some _ |- _ => rewrite H
                            | H : _ = None |- _ => rewrite H end.
  all: done.
Qed.

(** A [stop()] returns, raises or never settles, and starts nothing. *)
Lemma stop_outcomes env w :
  wp (stop env)
     (fun o w' t =>
        (o = Ret () \/ (exists e, o = Throw e) \/ o = Pending) /\
        List.filter is_starting t = [] /\
        List.filter is_new_engine t = []) w.
Proof.
  unfold stop. wp_run; eauto 10.
  unfold stop_body. wp_run; eauto 10.
Qed.


(** [start()] leaves the engines that existed before as they were. *)
Lemma start_keeps_engines options env w :
  wp (start options env)
     (fun o w' t =>
        forall i, i < length (servers (heap w)) ->
                  servers (heap w') !! i = servers (heap w) !! i) w.
Proof.
  unfold start. wp_run; try done.
  unfold start_body. wp_run; try done.
  eapply wp_push; [apply new_server_lookup|].
  intros o s' t1 Hp Hr; simpl.
  wp_run.
  all: intros i Hi.
  all: rewrite ?list_lookup_alter_ne by lia.
  all: rewrite list_lookup_insert_ne by lia.
  all: by rewrite lookup_app_l.
Qed.


(** X8. [restart()] on a running controller begins the start-up only after
    the stop has fully succeeded. Either the stop did not return, because it
    raised or because it never settles (the close callback of the socket is
    never invoked): then [restart()] is that stop, with the same outcome,
    and no starting event was emitted and no engine built. Or the stop
    returned, leaving the controller idle after its stopped event, and
    [restart()] continues with a [start()] that really starts (it is not the
    already-running no-op): its outcome is the outcome of [restart()]. *)
Theorem restart_waits_for_stop options env w o w' t :
  isRunning w = true ->
  restart options env w = (o, w', t) ->
  (stop env w = (o, w', t) /\
   ((exists e, o = Throw e) \/ o = Pending) /\
   List.filter is_starting t = [] /\ List.filter is_new_engine t = []) \/
  (exists w1 t1 t2,
     stop env w = (Ret (), w1, t1) /\
     start options env w1 = (o, w', t2) /\
     t = t1 ++ t2 /\
     idle (vars w1) /\
     List.filter is_lifecycle_event t1 =
       [Emit serverStopping; Emit serverStopped] /\
     List.filter is_starting t2 = [Emit serverStarting]).
Proof.
  intros Hrun. unfold restart. unfold_m.
  pose proof (stop_outcomes env w) as Hf.
  pose proof (stop_success env w Hrun) as Hs.
  pose proof (stop_heap env w Hrun) as Hh.
  unfold wp in Hf, Hs, Hh.
  destruct (stop env w) as [[[[]|e|] w1] t1].
  - destruct (Hs eq_refl) as (_ & _ & Hv). destruct (Hh eq_refl) as [_ Hl].
    clear Hf Hs Hh.
    assert (isRunning w1 = false) as Hidle by (unfold isRunning; by rewrite Hv).
    assert (wp (start options env)
              (fun _ _ t2 => List.filter is_starting t2 = [Emit serverStarting])
              w1) as Hone.
    { unfold isRunning in Hidle. unfold start. wp_step.
      rewrite Hidle. wp_run; try done.
      unfold start_body. wp_run; try done.
      apply wp_push_any. intros o2 w2 t2 _ Hr _.
      pose proof (filter_registration is_starting t2
                    ltac:(by intros [| | [] | |]) Hr) as Hn.
      destruct o2 as [[]|e2|]; simpl; wp_run.
      all: simpl_filters; done. }
    unfold wp in Hone.
    destruct (start options env w1) as [[o2 w2] t2] eqn:E2.
    intros [= <- <- <-]. right. exists w1, t1, t2.
    split; [done|]. split; [done|]. split; [done|].
    split; [unfold idle; by rewrite Hv|]. done.
  - destruct Hf as (_ & Hn1 & Hn2). intros [= <- <- <-]. left. eauto 10.
  - destruct Hf as (_ & Hn1 & Hn2). intros [= <- <- <-]. left. eauto 10.
Qed.

Lemma restart_waits_for_stop_witness :
  (restart http_options held_open http_running).1.1 = Pending /\
  List.filter is_starting
    (restart http_options held_open http_running).2 = [].
Proof.
  destruct (restart_waits_for_stop http_options held_open
              http_running
              (restart http_options held_open http_running).1.1
              (restart http_options held_open http_running).1.2
              (restart http_options held_open http_running).2
              eq_refl eq_refl)
    as [(_ & _ & Hn & _)|(w1 & t1 & t2 & Hs & _)].
  - split; [reflexivity|exact Hn].
  - vm_compute in Hs. discriminate Hs.
Defined.





(** ** The registry over whole executions *)

Lemma registerTools_registry env tools w :
  wp (registerTools env tools)
     (fun o w' t =>
        registeredTools (vars w') =
          registeredTools (vars w) ++
          match o with Ret _ => tools | _ => [] end) w.
Proof.
  unfold registerTools. wp_run.
  - apply wp_push_any. intros [[]| |] w1 t1 Hv Hr Ho; try done; simpl.
    + wp_run. by rewrite Hv.
    + rewrite Hv. by rewrite app_nil_r.
  - done.
Qed.

Lemma start_registry options env w :
  wp (start options env)
     (fun o w' t => registeredTools (vars w') = registeredTools (vars w)) w.
Proof.
  unfold start. wp_run; try done.
  unfold start_body. wp_run; try done.
  apply wp_push_any. intros [[]|e|] w1 t1 Hv Hr Ho; try done; simpl.
  all: wp_run; by rewrite ?Hv.
Qed.

Lemma stop_registry env w :
  wp (stop env)
     (fun o w' t => registeredTools (vars w') = registeredTools (vars w)) w.
Proof.
  unfold stop. wp_run; try done.
  unfold stop_body. wp_run; done.
Qed.

Lemma run_op_registry options env op w :
  wp (run_op options env op)
     (fun o w' t =>
        registeredTools (vars w') =
          registeredTools (vars w) ++
          match op, o with
          | OpRegisterTools tools, Ret _ => tools
          | _, _ => []
          end) w.
Proof.
  destruct op as [tools| | | |hs request|response]; simpl.
  - eapply wp_mono; [apply registerTools_registry|]. by intros [] ??.
  - eapply wp_mono; [apply start_registry|].
    intros ??? ->. by rewrite app_nil_r.
  - eapply wp_mono; [apply stop_registry|].
    intros ??? ->. by rewrite app_nil_r.
  - unfold restart. wp_step.
    eapply wp_mono; [apply stop_registry|].
    intros [[]|e|] w1 t1 Hv; simpl; rewrite ?app_nil_r; try done.
    eapply wp_mono; [apply start_registry|].
    by intros ??? ->.
  - wp_step. eapply wp_mono; [apply expressApp_handle_frame|].
    intros [r|e|] w1 t1 ([r' Ho] & Hv & _); try done; simpl.
    wp_step. by rewrite Hv, app_nil_r.
  - eapply wp_mono; [apply connection_close_frame|].
    intros ??? (_ & -> & _). by rewrite app_nil_r.
Qed.

(** X11. The registry is append-only and only [registerTools] writes it:
    after any sequence of calls to the controller, requests and connection
    closes, under any behaviour of the collaborators, the tools reported by
    [getStatus()] are the tools it reported at the beginning followed by the
    arguments of the [registerTools] calls that returned, in call order.
    Starting, stopping, restarting, requests and failed registrations leave
    the registry as it is. *)
Theorem registry_is_the_accepted_registrations options calls w :
  status_tools (getStatus (exec options calls w).1) =
    status_tools (getStatus w) ++ accepted_tools options calls w.
Proof.
  unfold getStatus. simpl. revert w.
  induction calls as [|[env op] rest IH]; intros w; simpl.
  - by rewrite app_nil_r.
  - pose proof (run_op_registry options env op w) as H. unfold wp in H.
    destruct (run_op options env op w) as [[o w1] t1].
    specialize (IH w1). destruct (exec options rest w1) as [w2 t2].
    simpl in *. by rewrite IH, H, <- app_assoc.
Qed.

(** ** Requests and the controller *)

Lemma lookup_alter_tools (f : McpServer -> McpServer) (j : nat)
    (l : list McpServer) (i : nat) :
  (forall s, srv_tools (f s) = srv_tools s) ->
  srv_tools <$> alter f j l !! i = srv_tools <$> l !! i.
Proof.
  intros Hf. destruct (decide (j = i)) as [->|Hne].
  - rewrite list_lookup_alter_eq. destruct (l !! i); simpl; [|done].
    by rewrite Hf.
  - by rewrite list_lookup_alter_ne.
Qed.

Lemma untouched_refl w h :
  servers h = servers (heap w) -> httpServers h = httpServers (heap w) ->
  untouched w {| vars := vars w; heap := h |} [].
Proof. intros Hs Hh. unfold untouched. simpl. by rewrite Hs, Hh. Qed.

Lemma untouched_trans w w1 w2 t1 t2 :
  untouched w w1 t1 -> untouched w1 w2 t2 -> untouched w w2 (t1 ++ t2).
Proof.
  intros (Hv1 & Ht1 & Hh1 & Hl1 & Hn1) (Hv2 & Ht2 & Hh2 & Hl2 & Hn2).
  unfold untouched. rewrite !List.filter_app, Hl1, Hl2, Hn1, Hn2.
  repeat split; try congruence.
Qed.

Ltac untouched_leaf :=
  unfold untouched; simpl; rewrite ?List.filter_app; simpl;
  repeat split; try done;
  intros; rewrite ?lookup_alter_tools by done; done.

Lemma run_handler_untouched env h request response w :
  wp (run_handler env h request response)
     (fun o w' t => untouched w w' t) w.
Proof.
  destruct h; simpl; wp_run.
  all: repeat (match goal with
               | |- context [ho_reply ?x] => destruct (ho_reply x) as [[??]|] eqn:?
               end; simpl; wp_run).
  all: untouched_leaf.
Qed.

Lemma run_close_listeners_untouched env response ls w :
  wp (run_close_listeners env response ls)
     (fun o w' t => untouched w w' t) w.
Proof.
  revert w. induction ls as [|l ls IH]; intros w; simpl; [wp_run; untouched_leaf|].
  wp_run.
  all: eapply wp_mono; [apply IH|]; simpl; intros o w' t H.
  all: destruct H as (Hv & Ht & Hh & Hl & Hn); simpl in *.
  all: unfold untouched; simpl; rewrite Hl, Hn, Hv, Hh.
  all: repeat split; try done.
  all: intros i; rewrite Ht; simpl; by rewrite ?lookup_alter_tools.
Qed.

Lemma connection_close_untouched env response w :
  wp (connection_close env response) (fun o w' t => untouched w w' t) w.
Proof.
  unfold connection_close. wp_run; [|untouched_leaf].
  eapply wp_mono; [apply run_close_listeners_untouched|].
  intros o w' t (Hv & Ht & Hh & Hl & Hn). by repeat split.
Qed.

Lemma expressApp_handle_untouched env hs request w :
  wp (expressApp_handle env hs request) (fun o w' t => untouched w w' t) w.
Proof.
  unfold expressApp_handle. wp_run; try untouched_leaf.
  all: eapply wp_mono; [apply run_handler_untouched|]; simpl.
  all: intros o w' t (Hv & Ht & Hh & Hl & Hn); simpl in *.
  all: destruct o as [[]|e|]; simpl; wp_run.
  all: unfold untouched; simpl; rewrite ?List.filter_app; simpl.
  all: rewrite ?Hl, ?Hn, Hv, Hh; repeat split; try done.
Qed.

(** X12. Handling a request and closing a connection never touch the
    controller: whatever the route, the verb, the collaborators and the
    listeners do, the five closure variables (engine handle, socket handle,
    registry, running flag, connection info) are as before, so
    [getStatus()] is unchanged; every engine still has the tools it had
    registered, the HTTP server objects are unchanged, no lifecycle event is
    emitted and no engine is built. *)
Theorem requests_leave_the_controller_alone env w :
  (forall hs request,
     match expressApp_handle env hs request w with
     | (o, w', t) => untouched w w' t /\ getStatus w' = getStatus w
     end) /\
  (forall response,
     match connection_close env response w with
     | (o, w', t) => untouched w w' t /\ getStatus w' = getStatus w
     end).
Proof.
  split.
  - intros hs request.
    pose proof (expressApp_handle_untouched env hs request w) as Hu.
    unfold wp in Hu.
    destruct (expressApp_handle env hs request w) as [[o w'] t].
    split; [done|]. destruct Hu as (Hv & _). unfold getStatus. by rewrite Hv.
  - intros response.
    pose proof (connection_close_untouched env response w) as Hu.
    unfold wp in Hu.
    destruct (connection_close env response w) as [[o w'] t].
    split; [done|]. destruct Hu as (Hv & _). unfold getStatus. by rewrite Hv.
Qed.

(** ** The engine and the registry *)

Lemma push_outcome_accepting env server s tools :
  accepting env -> (push_outcome env server s tools).1.1 = None.
Proof.
  intros Ha. revert s. induction tools as [|tool rest IH]; intros s; simpl.
  - done.
  - rewrite Ha. specialize (IH (srv_add_tool tool s)).
    by destruct (push_outcome env server (srv_add_tool tool s) rest) as [[??]?].
Qed.

Lemma untouched_mirrors w w' t :
  untouched w w' t -> engine_mirrors_registry w -> engine_mirrors_registry w'.
Proof.
  intros (Hv & Ht & _) Hinv server Hm. rewrite Hv in Hm.
  destruct (Hinv _ Hm) as (s & Hl & Hts).
  specialize (Ht server). rewrite Hl in Ht. simpl in Ht.
  destruct (servers (heap w') !! server) as [s'|]; [|done].
  injection Ht as Ht. exists s'. split; [done|]. rewrite Hv. congruence.
Qed.

Lemma registerTools_mirrors env tools w :
  accepting env -> engine_mirrors_registry w ->
  wp (registerTools env tools) (fun _ w' _ => engine_mirrors_registry w') w.
Proof.
  intros Ha Hinv. unfold registerTools. wp_run.
  - destruct (Hinv _ ltac:(eassumption)) as (s & Hl & Ht).
    eapply wp_push; [exact Hl|].
    intros o s' t Hp Hr.
    pose proof (push_outcome_accepting env n s tools Ha) as Hnone.
    rewrite Hp in Hnone. simpl in Hnone. subst o.
    apply push_outcome_accepted in Hp as (Htools & _ & _). simpl.
    wp_run. intros server Hm. simpl in *. simplify_eq.
    exists s'. split; [|congruence].
    apply list_lookup_insert_eq. by eapply lookup_lt_Some.
  - intros server Hm. simpl in *. congruence.
Qed.

Lemma start_mirrors options env w :
  accepting env -> engine_mirrors_registry w ->
  wp (start options env) (fun _ w' _ => engine_mirrors_registry w') w.
Proof.
  intros Ha Hinv. unfold start. wp_run; try done.
  unfold start_body. wp_run; try done.
  eapply wp_push; [apply new_server_lookup|].
  intros o s' t Hp Hr.
  pose proof (push_outcome_accepting env (length (servers (heap w)))
                {| srv_name := opt_name options;
                   srv_version := opt_version options;
                   srv_description := engine_description options;
                   srv_tools := []; srv_transport := None |}
                (registeredTools (vars w)) Ha) as Hnone.
  rewrite Hp in Hnone. simpl in Hnone. subst o.
  apply push_outcome_accepted in Hp as (Htools & _ & _). simpl in Htools.
  simpl. wp_run.
  all: intros server [= <-]; simpl.
  all: rewrite ?list_lookup_alter_eq, list_lookup_insert_eq
    by (rewrite length_app; simpl; lia).
  all: by eexists.
Qed.

Lemma stop_mirrors env w :
  engine_mirrors_registry w ->
  wp (stop env) (fun _ w' _ => engine_mirrors_registry w') w.
Proof.
  intros Hinv. unfold stop. wp_run; try done.
  unfold stop_body. wp_run.
  all: intros server Hm; simpl in *; try done.
  all: destruct (Hinv server ltac:(congruence)) as (s & Hl & Ht).
  all: rewrite ?list_lookup_alter_eq, Hl; by eexists.
Qed.

Lemma run_op_mirrors options env op w :
  accepting env -> engine_mirrors_registry w ->
  wp (run_op options env op) (fun _ w' _ => engine_mirrors_registry w') w.
Proof.
  intros Ha Hinv.
  destruct op as [tools| | | |hs request|response]; simpl.
  - by apply registerTools_mirrors.
  - by apply start_mirrors.
  - by apply stop_mirrors.
  - unfold restart. wp_step.
    eapply wp_mono; [by apply stop_mirrors|].
    intros [[]|e|] w1 t1 H1; try done.
    eapply wp_mono; [by apply start_mirrors|]. done.
  - wp_step. eapply wp_mono; [apply expressApp_handle_untouched|].
    intros [r|e|] w1 t1 Hu; simpl; [wp_step|..].
    all: exact (untouched_mirrors _ _ _ Hu Hinv).
  - eapply wp_mono; [apply connection_close_untouched|].
    intros o w1 t1 Hu. exact (untouched_mirrors _ _ _ Hu Hinv).
Qed.

(** X13. The engine mirrors the registry. As long as the engine accepts
    every registration it is offered, then after any sequence of calls to
    the controller, requests and connection closes, whenever the controller
    holds an engine handle it names a live engine whose registered tools are
    exactly the tools [getStatus()] reports, in the same order. *)
Theorem engine_mirrors_registry_always options calls w :
  Forall (fun c => accepting c.1) calls ->
  engine_mirrors_registry w ->
  engine_mirrors_registry (exec options calls w).1.
Proof.
  intros Hcalls. revert w.
  induction Hcalls as [|[env op] rest Ha _ IH]; intros w Hinv; simpl; [done|].
  pose proof (run_op_mirrors options env op w Ha Hinv) as H. unfold wp in H.
  destruct (run_op options env op w) as [[o w1] t1].
  specialize (IH w1 H). by destruct (exec options rest w1) as [w2 t2].
Qed.

Lemma engine_mirrors_registry_always_witness :
  engine_mirrors_registry (exec http_options session
                             (buildMCPServer http_options)).1.
Proof.
  apply (engine_mirrors_registry_always http_options session
           (buildMCPServer http_options)).
  - by repeat constructor.
  - intros server Hm. discriminate Hm.
Defined.

(** ** [pushToolsToServer] *)

Lemma engine_with_tools tools s :
  srv_tools (engine_with tools s) = srv_tools s ++ tools.
Proof.
  revert s. induction tools as [|tool rest IH]; intros s; simpl.
  - by rewrite app_nil_r.
  - unfold engine_with in *. simpl. rewrite IH. simpl. by rewrite <- app_assoc.
Qed.

Lemma push_outcome_prefix env server s tools :
  match push_outcome env server s tools with
  | (o, s', t) =>
      exists accepted rest,
        tools = accepted ++ rest /\
        s' = engine_with accepted s /\
        List.filter is_registerTool t =
          map (fun tool => Call (RegisterTool server tool))
              (accepted ++ take 1 rest) /\
        match o with
        | None => rest = []
        | Some e =>
            exists tool, head rest = Some tool /\
                         registerTool_raises env s' tool = Some e
        end
  end.
Proof.
  revert s. induction tools as [|tool rest IH]; intros s; simpl.
  - by exists [], [].
  - destruct (registerTool_raises env s tool) as [e|] eqn:Hrej.
    + exists [], (tool :: rest). simpl. repeat split; try done. by exists tool.
    + specialize (IH (srv_add_tool tool s)).
      destruct (push_outcome env server (srv_add_tool tool s) rest)
        as [[o s'] t].
      destruct IH as (accepted & rest' & -> & -> & Hf & Ho).
      exists (tool :: accepted), rest'. simpl. by rewrite Hf.
Qed.

(** X14. [pushToolsToServer] on a live engine offers the tools one by one,
    in order, and stops at the first one the engine refuses: the tools
    before it are registered in the engine, in order, after those it
    already had; the refused tool is the last one offered and the tools
    after it are never offered; the call raises what the engine raised for
    that tool. It returns exactly when every tool was accepted, and never
    touches the closure variables. *)
Theorem push_stops_at_first_rejection env server s tools w o w' t :
  servers (heap w) !! server = Some s ->
  pushToolsToServer env server tools w = (o, w', t) ->
  exists accepted rest,
    tools = accepted ++ rest /\
    vars w' = vars w /\
    servers (heap w') !! server = Some (engine_with accepted s) /\
    srv_tools (engine_with accepted s) = srv_tools s ++ accepted /\
    List.filter is_registerTool t =
      map (fun tool => Call (RegisterTool server tool))
          (accepted ++ take 1 rest) /\
    match o with
    | Ret _ => rest = []
    | Throw e =>
        exists tool, head rest = Some tool /\
                     registerTool_raises env (engine_with accepted s) tool =
                       Some e
    | Pending => False
    end.
Proof.
  intros Hs. rewrite (pushToolsToServer_eq _ _ _ _ _ Hs).
  pose proof (push_outcome_prefix env server s tools) as H.
  destruct (push_outcome env server s tools) as [[o1 s'] t1].
  destruct H as (accepted & rest & -> & -> & Hf & Ho).
  intros [= <- <- <-]. exists accepted, rest. simpl.
  split; [done|]. split; [done|].
  split; [apply list_lookup_insert_eq; by eapply lookup_lt_Some|].
  split; [apply engine_with_tools|]. split; [done|].
  by destruct o1.
Qed.

Lemma push_stops_at_first_rejection_witness :
  exists accepted rest,
    [add; echo; add] = accepted ++ rest /\
    List.filter is_registerTool
      (pushToolsToServer strict_engine 0 [add; echo; add] http_running).2 =
      map (fun tool => Call (RegisterTool 0 tool)) (accepted ++ take 1 rest).
Proof.
  destruct (push_stops_at_first_rejection strict_engine 0
              {| srv_name := "demo"; srv_version := "1.0.0";
                 srv_description := "demo MCP server";
                 srv_tools := [echo]; srv_transport := None |}
              [add; echo; add] http_running
              (pushToolsToServer strict_engine 0 [add; echo; add]
                 http_running).1.1
              (pushToolsToServer strict_engine 0 [add; echo; add]
                 http_running).1.2
              (pushToolsToServer strict_engine 0 [add; echo; add]
                 http_running).2
              eq_refl eq_refl)
    as (accepted & rest & Ht & _ & _ & _ & Hf & _).
  by exists accepted, rest.
Defined.

(** ** The teardown of a request *)

Lemma lookup_alter_tr_close (ts : list Transport) (i j : nat) x :
  ts !! i = Some (tr_close x) ->
  alter tr_close j ts !! i = Some (tr_close x).
Proof.
  intros H. destruct (decide (j = i)) as [->|Hne].
  - by rewrite list_lookup_alter_eq, H.
  - by rewrite list_lookup_alter_ne.
Qed.

(** The transport of a close listener is marked closed once its [close()]
    has returned, whatever the engine's [close()] does afterwards. *)
Lemma close_listener_marks_closed env response l w x :
  context w response = [l] ->
  transport_close_raises env = None ->
  transports (heap w) !! cl_transport l = Some x ->
  wp (connection_close env response)
     (fun o w' t => transports (heap w') !! cl_transport l = Some (tr_close x)) w.
Proof.
  unfold context, connection_close. intros Hc Hnone Hx. wp_step.
  destruct (responses (heap w) !! response) as [r|]; [|done].
  rewrite Hc. simpl. wp_run; simplify_eq.
  all: try match goal with
         | |- context [match ?y with Some _ => _ | None => _ end] => destruct y
         end.
  all: simpl.
  all: first [ by rewrite list_lookup_alter_eq, Hx
             | apply lookup_alter_tr_close;
               by rewrite list_lookup_alter_eq, Hx ].
Qed.

(** X15. When the connection of a request closes, its close listener runs
    one fixed script: [close()] on the request's transport; then, only if
    that returned, [close()] on the engine; then, if either raised, the
    request-failed event carrying that error; then the request-completed
    event, always; the call itself returns to node, and what a listener of
    these events raises is left unhandled. In particular, when closing the
    transport raises, the engine's [close()] is never called, and the two
    events come after the closes. *)
Theorem teardown_closes_transport_then_engine env response l w :
  context w response = [l] ->
  (connection_close env response w).1.1 = Ret () /\
  (connection_close env response w).2 = teardown_trace env l response /\
  List.filter is_teardown_call (connection_close env response w).2 =
    Call (TransportClose (cl_transport l)) ::
    match transport_close_raises env with
    | None => [Call (ServerClose (cl_server l))]
    | Some _ => []
    end.
Proof.
  intros Hc.
  pose proof (close_listener_trace env response l w Hc) as H. unfold wp in H.
  destruct (connection_close env response w) as [[o w'] t]. simpl.
  destruct H as [-> ->]. split; [done|]. split; [done|].
  unfold teardown_trace, teardown_unhandled, teardown_error. simpl.
  destruct (transport_close_raises env) as [e|]; simpl.
  - by destruct (listener_raises env (requestCompleted (cl_request l) response)),
      (listener_raises env (requestFailed (cl_request l) e)).
  - destruct (close_raises env) as [e|]; simpl.
    + by destruct
        (listener_raises env (requestCompleted (cl_request l) response)),
        (listener_raises env (requestFailed (cl_request l) e)).
    + by destruct
        (listener_raises env (requestCompleted (cl_request l) response)).
Qed.

Lemma teardown_closes_transport_then_engine_witness :
  (connection_close transport_close_fails 0
     (expressApp_handle calm 0 (post_mcp 1) http_running).1.2).2 =
    [Call (TransportClose 0);
     Emit (requestFailed (post_mcp 1) "transport close failed");
     Emit (requestCompleted (post_mcp 1) 0)].
Proof.
  destruct (teardown_closes_transport_then_engine transport_close_fails 0
              {| cl_transport := 0; cl_server := 0;
                 cl_request := post_mcp 1 |}
              (expressApp_handle calm 0 (post_mcp 1) http_running).1.2
              eq_refl) as (_ & H & _).
  exact H.
Defined.

(** A POST on the endpoint connects the engine of the route to the transport
    it has just built, and to nothing else. *)
Lemma post_request_connects env hs s server request w :
  httpServers (heap w) !! hs = Some s ->
  hs_routes s = mcp_routes server ->
  req_method request = POST ->
  req_path request = "/mcp" ->
  wp (expressApp_handle env hs request)
     (fun o w' t =>
        forall sv tr,
          In (Call (Connect sv tr)) t ->
          sv = server /\ tr = length (transports (heap w)) /\
          registers_teardown env request = true) w.
Proof.
  intros Hs Hroutes Hm Hp. unfold expressApp_handle, registers_teardown.
  wp_step. unfold new_Response. wp_run; simplify_eq/=.
  all: match goal with
       | H : find _ _ = _ |- _ =>
           rewrite Hroutes in H; unfold mcp_routes, route_handles in H;
           simpl in H; rewrite Hm, Hp in H; simpl in H; simplify_eq/=
       end.
  wp_run.
  all: repeat (match goal with
               | |- context [ho_reply ?x] =>
                   destruct (ho_reply x) as [[??]|] eqn:?
               end; simpl; wp_run).
  all: intros sv tr Hin.
  all: repeat match goal with
         | H : ?x = _ |- context [bool_decide (?x = None)] => rewrite H
         end; simpl.
  all: repeat (destruct Hin as [Hin|Hin]; [by simplify_eq|]); done.
Qed.

(** X16. No connected transport is left behind. For a POST on the endpoint,
    if the handler got as far as connecting the engine to a transport, that
    transport is the one built for this request, the engine is the one of
    the route, and the close listener of the response names that transport:
    when the connection closes, [close()] is called on it, and it is marked
    closed unless that call raises. *)
Theorem connected_transport_is_closed env1 env2 hs s server request w :
  httpServers (heap w) !! hs = Some s ->
  hs_routes s = mcp_routes server ->
  req_method request = POST ->
  req_path request = "/mcp" ->
  let response := length (responses (heap w)) in
  let handled := expressApp_handle env1 hs request w in
  let closed := connection_close env2 response handled.1.2 in
  forall sv tr,
    In (Call (Connect sv tr)) handled.2 ->
    sv = server /\
    tr = length (transports (heap w)) /\
    transports (heap handled.1.2) !! tr = Some sessionless_transport /\
    In (Call (TransportClose tr)) closed.2 /\
    (transport_close_raises env2 = None ->
     transports (heap closed.1.2) !! tr = Some (tr_close sessionless_transport)).
Proof.
  intros Hs Hroutes Hm Hp response handled closed sv tr Hin.
  pose proof (post_request_connects env1 hs s server request w Hs Hroutes Hm Hp)
    as Hc.
  pose proof (post_request_context env1 hs s server request w Hs Hroutes Hm Hp)
    as Hx.
  pose proof (post_request_effect env1 hs s server request w Hs Hroutes Hm Hp)
    as He.
  unfold wp in Hc, Hx, He. subst closed handled response.
  destruct (expressApp_handle env1 hs request w) as [[o w1] t1]. simpl in *.
  destruct (Hc sv tr Hin) as (-> & -> & Hreg).
  destruct Hx as [_ Hx]. destruct He as (_ & _ & _ & Htr).
  rewrite Hreg in Hx, Htr.
  pose proof (close_listener_calls env2 _ _ w1 Hx) as Hcalls.
  assert (transports (heap w1) !! length (transports (heap w)) =
            Some sessionless_transport) as Hlook.
  { rewrite Htr. by apply list_lookup_middle. }
  assert (transport_close_raises env2 = None ->
          wp (connection_close env2 (length (responses (heap w))))
             (fun _ w' _ =>
                transports (heap w') !! length (transports (heap w)) =
                  Some (tr_close sessionless_transport)) w1) as Hheap.
  { intros Hnone.
    exact (close_listener_marks_closed env2 _ _ w1 _ Hx Hnone Hlook). }
  unfold wp in Hcalls, Hheap.
  destruct (connection_close env2 (length (responses (heap w))) w1)
    as [[o2 w2] t2].
  simpl in *. destruct Hcalls as (_ & _ & Hclose & _).
  split; [done|]. split; [done|].
  split; [done|]. split; [done|].
  exact Hheap.
Qed.

Lemma connected_transport_is_closed_witness :
  let handled := expressApp_handle calm 0 (post_mcp 1) http_running in
  let closed := connection_close calm 0 handled.1.2 in
  In (Call (TransportClose 0)) closed.2 /\
  transports (heap closed.1.2) !! 0 = Some (tr_close sessionless_transport).
Proof.
  destruct (connected_transport_is_closed calm calm 0
              {| hs_port := 4000; hs_host := "localhost";
                 hs_routes := mcp_routes 0; hs_listening := true |}
              0 (post_mcp 1) http_running eq_refl eq_refl eq_refl eq_refl
              0 0) as (_ & _ & _ & Hc & Ht).
  - simpl. auto 10.
  - split; [exact Hc|]. by apply Ht.
Defined.

(** ** The engine [start] builds *)

Lemma engine_with_identity tools s :
  srv_name (engine_with tools s) = srv_name s /\
  srv_version (engine_with tools s) = srv_version s /\
  srv_description (engine_with tools s) = srv_description s.
Proof.
  revert s. induction tools as [|tool rest IH]; intros s; [done|].
  unfold engine_with in *. simpl. by destruct (IH (srv_add_tool tool s)) as (-> & -> & ->).
Qed.

Lemma default_description_nonempty (name : string) :
  name +:+ " MCP server" <> "".
Proof. by destruct name. Qed.

(** X17. The engine built by a [start()] that returns carries the
    configured name and version; its description is the configured one when
    that is given and not empty, and otherwise the name followed by
    MCP server, so it is never empty. *)
Theorem started_engine_identity options env w w' t :
  isRunning w = false ->
  start options env w = (Ret (), w', t) ->
  exists server s,
    mcpServer (vars w') = Some server /\
    servers (heap w') !! server = Some s /\
    srv_name s = opt_name options /\
    srv_version s = opt_version options /\
    srv_description s <> "" /\
    match opt_description options with
    | Some d => d <> "" -> srv_description s = d
    | None => True
    end /\
    (default "" (opt_description options) = "" ->
     srv_description s = opt_name options +:+ " MCP server").
Proof.
  unfold isRunning. intros Hrun E.
  assert (engine_description options <> "" /\
          match opt_description options with
          | Some d => d <> "" -> engine_description options = d
          | None => True
          end /\
          (default "" (opt_description options) = "" ->
           engine_description options = opt_name options +:+ " MCP server"))
    as Hd.
  { unfold engine_description.
    destruct (opt_description options) as [d|]; simpl.
    - case_bool_decide as Hempty; simpl.
      + split; [apply default_description_nonempty|]. done.
      + done.
    - split; [apply default_description_nonempty|]. done. }
  cut (wp (start options env)
         (fun o w' t =>
            o = Ret () ->
            exists server s,
              mcpServer (vars w') = Some server /\
              servers (heap w') !! server = Some s /\
              srv_name s = opt_name options /\
              srv_version s = opt_version options /\
              srv_description s = engine_description options) w).
  { intros H. destruct (wp_elim _ _ _ _ _ _ H E eq_refl)
      as (server & s & Hm & Hl & Hn & Hv & Hdesc).
    exists server, s. rewrite Hdesc. destruct Hd as (H1 & H2 & H3).
    repeat (split; [done|]). done. }
  clear E. unfold start. wp_step. rewrite Hrun.
  wp_run; try done.
  unfold start_body. wp_run; try done.
  eapply wp_push; [apply new_server_lookup|].
  intros [e1|] s' t1 Hp Hr; simpl; [wp_run; done|].
  pose proof (push_outcome_prefix env (length (servers (heap w)))
                {| srv_name := opt_name options;
                   srv_version := opt_version options;
                   srv_description := engine_description options;
                   srv_tools := []; srv_transport := None |}
                (registeredTools (vars w))) as Hpre.
  rewrite Hp in Hpre. destruct Hpre as (accepted & rest & _ & -> & _).
  destruct (engine_with_identity accepted
              {| srv_name := opt_name options;
                 srv_version := opt_version options;
                 srv_description := engine_description options;
                 srv_tools := []; srv_transport := None |})
    as (Hn & Hv & Hdesc).
  wp_run; try done.
  all: intros _; eexists _, _; split; [reflexivity|].
  all: rewrite ?list_lookup_alter_eq, list_lookup_insert_eq
    by (rewrite length_app; simpl; lia).
  all: by split.
Qed.

Lemma started_engine_identity_witness :
  exists s,
    servers (heap (start http_any_port_options calm
                     (buildMCPServer http_any_port_options)).1.2) !! 0 =
      Some s /\
    srv_description s = "demo MCP server".
Proof.
  destruct (started_engine_identity http_any_port_options calm
              (buildMCPServer http_any_port_options)
              (start http_any_port_options calm
                 (buildMCPServer http_any_port_options)).1.2
              (start http_any_port_options calm
                 (buildMCPServer http_any_port_options)).2
              eq_refl eq_refl)
    as (server & s & Hm & Hl & _ & _ & _ & _ & Hd).
  vm_compute in Hm. injection Hm as <-.
  exists s. split; [exact Hl|]. by apply Hd.
Defined.

(** X18. [start()] only adds: whatever its outcome, it calls [close()] on
    nothing (no engine, no transport, no HTTP server), every engine that
    existed before is exactly as it was, the transports and HTTP server
    objects that existed are unchanged and at most new ones are appended
    after them, and the response objects are untouched. In particular what a
    failed [start()] has built is left as it is, not torn down. *)
Theorem start_only_adds options env w o w' t :
  start options env w = (o, w', t) ->
  List.filter is_close_call t = [] /\
  (forall i, i < length (servers (heap w)) ->
             servers (heap w') !! i = servers (heap w) !! i) /\
  (exists new, transports (heap w') = transports (heap w) ++ new) /\
  (exists new, httpServers (heap w') = httpServers (heap w) ++ new) /\
  responses (heap w') = responses (heap w).
Proof.
  intros E.
  pose proof (wp_elim _ _ _ _ _ _ (start_keeps_engines options env w) E) as Hk.
  split; [|split; [exact Hk|]]; revert E.
  - cut (wp (start options env)
           (fun _ _ t => List.filter is_close_call t = []) w).
    { intros H E. by apply (wp_elim _ _ _ _ _ _ H E). }
    unfold start. wp_run; try done.
    unfold start_body. wp_run; try done.
    apply wp_push_any. intros o2 w2 t2 _ Hr _.
    pose proof (filter_registration is_close_call t2
                  ltac:(by intros [| | [] | |]) Hr) as Hn.
    destruct o2 as [[]|e2|]; simpl; wp_run.
    all: simpl_filters; done.
  - cut (wp (start options env)
           (fun _ w' _ =>
              (exists new, transports (heap w') = transports (heap w) ++ new) /\
              (exists new, httpServers (heap w') = httpServers (heap w) ++ new) /\
              responses (heap w') = responses (heap w)) w).
    { intros H E. by apply (wp_elim _ _ _ _ _ _ H E). }
    assert (forall A (l : list A), exists new, l = l ++ new) as Hnil.
    { intros A l. exists []. by rewrite app_nil_r. }
    unfold start. wp_run; try done.
    unfold start_body. wp_run; try done.
    eapply wp_push; [apply new_server_lookup|].
    intros o2 s' t2 _ _. destruct o2 as [e2|]; simpl; wp_run.
    all: simpl; eauto.
Qed.

Lemma start_only_adds_witness :
  List.filter is_close_call
    (start stdio_options connect_fails (buildMCPServer stdio_options)).2 = [] /\
  exists new,
    transports (heap (start stdio_options connect_fails
                        (buildMCPServer stdio_options)).1.2) = [] ++ new.
Proof.
  destruct (start_only_adds stdio_options connect_fails
              (buildMCPServer stdio_options)
              (start stdio_options connect_fails
                 (buildMCPServer stdio_options)).1.1
              (start stdio_options connect_fails
                 (buildMCPServer stdio_options)).1.2
              (start stdio_options connect_fails
                 (buildMCPServer stdio_options)).2
              eq_refl) as (Hc & _ & Ht & _).
  by split.
Defined.

(** ** Answers *)

(** X19. The controller answers a request at most once, and only on the
    request's own response object: handling a request creates exactly one
    response object, the next free one, and leaves every earlier one as it
    was; the handlers call [response.status(..).json(..)] at most once, on
    that new response, with status 405 and the method-not-allowed body or
    with status 500 and the internal-error body. *)
Theorem request_is_answered_at_most_once env hs request w :
  match expressApp_handle env hs request w with
  | (o, w', t) =>
      length (responses (heap w')) = S (length (responses (heap w))) /\
      (forall i, i < length (responses (heap w)) ->
                 responses (heap w') !! i = responses (heap w) !! i) /\
      length (List.filter is_send t) <= 1 /\
      (forall r status payload,
         In (Call (SendJson r status payload)) t ->
         r = length (responses (heap w)) /\
         ((status = 405 /\ payload = method_not_allowed) \/
          (status = 500 /\ payload = internal_server_error)))
  end.
Proof.
  change (wp (expressApp_handle env hs request)
            (fun o w' t =>
               length (responses (heap w')) = S (length (responses (heap w))) /\
               (forall i, i < length (responses (heap w)) ->
                          responses (heap w') !! i = responses (heap w) !! i) /\
               length (List.filter is_send t) <= 1 /\
               (forall r status payload,
                  In (Call (SendJson r status payload)) t ->
                  r = length (responses (heap w)) /\
                  ((status = 405 /\ payload = method_not_allowed) \/
                   (status = 500 /\ payload = internal_server_error)))) w).
  unfold expressApp_handle. wp_step. unfold new_Response. wp_run.
  all: try match goal with
         | |- wp (match ?h with _ => _ end _ _) _ _ => destruct h; simpl; wp_run
         end.
  all: repeat (match goal with
               | |- context [ho_reply ?x] =>
                   destruct (ho_reply x) as [[??]|] eqn:?
               end; simpl; wp_run).
  all: rewrite ?length_alter, ?length_app; simpl.
  all: split; [lia|].
  all: split;
    [intros i Hi; rewrite ?list_lookup_alter_ne by lia; by rewrite lookup_app_l|].
  all: split; [lia|].
  all: intros ? ? ? Hin.
  all: repeat (destruct Hin as [Hin|Hin]; [simplify_eq; auto|]); done.
Qed.

